(** * CPU SpMM kernels of pytorch_sparse (src/cpu/spmm.cpp)

    A shallow embedding of the two operators registered by the file,
    [spmm] and [spmm_val_bw], together with the [Reducer] policy they
    share, and the properties of the kernels proved on that embedding.

    Conventions of the embedding.
    - A tensor is its device flag, its shape and its logical contents in
      row-major order, i.e. what [contiguous()] materialises and what
      [DATA_PTR] then points to.
    - [int64_t] index arithmetic is carried out in [Z]; every place where
      the source narrows an [int64_t] to a C [int] goes through [to_int],
      the 32-bit two's-complement wrap.
    - The element type [scalar_t] of [AT_DISPATCH_ALL_TYPES] is a type
      class, [Scalar]; the integral element types are instances over [Z]
      with their wrap-around written out.
    - A call either returns ([Ok]), raises a C++ exception ([Throw]) or
      runs into undefined behaviour ([Undef]: a read or write outside a
      buffer, a null dereference, an integer division by zero). *)

From stdpp Require Import base numbers list strings gmap.

Open Scope Z_scope.

(** ** Outcomes of a call *)

Inductive Exn :=
| NotCPU            (* CHECK_CPU failed *)
| InputMismatch     (* AT_ASSERTM on a rank failed *)
| IndexError        (* Tensor::size on a dimension that does not exist *)
| NegativeDimension (* torch::empty / torch::zeros with a negative extent *)
| OutOfRange.       (* std::map::at on a key that is not in the map *)

Inductive Res (A : Type) :=
| Ok (a : A)
| Throw (e : Exn)
| Undef.
Arguments Ok {A} a.
Arguments Throw {A} e.
Arguments Undef {A}.

#[export] Instance Res_ret : MRet Res := fun _ a => Ok a.
#[export] Instance Res_bind : MBind Res := fun _ _ f m =>
  match m with
  | Ok a => f a
  | Throw e => Throw e
  | Undef => Undef
  end.

Definition is_Ok {A} (m : Res A) : bool :=
  match m with Ok _ => true | _ => false end.

(** ** Machine integers *)

(** Conversion of an [int64_t] to [int]. *)
Definition to_int (z : Z) : Z := (z + 2 ^ 31) `mod` 2 ^ 32 - 2 ^ 31.

Definition INT_MAX : Z := 2 ^ 31 - 1.

(** ** Buffers *)

(** [p[i]] as an rvalue. *)
Definition read {A} (p : list A) (i : Z) : Res A :=
  if i <? 0 then Undef
  else match p !! Z.to_nat i with
       | Some x => Ok x
       | None => Undef
       end.

(** [p[i] = x]. *)
Definition write {A} (p : list A) (i : Z) (x : A) : Res (list A) :=
  if (0 <=? i) && (i <? Z.of_nat (length p)) then Ok (<[Z.to_nat i := x]> p)
  else Undef.

(** A store through a pointer that may be [nullptr]. *)
Definition write_ptr {A} (p : option (list A)) (i : Z) (x : A)
  : Res (option (list A)) :=
  match p with
  | Some l => l' ← write l i x; Ok (Some l')
  | None => Undef
  end.

(** ** Counted loops

    [for_loop lo hi body s] is [for (int i = lo; i < hi; i++) body],
    threading the state [s]. The bound [hi] is an [int64_t]; the counter
    is incremented in [Z], which is what the [int] counter does as long
    as [hi] does not exceed [INT_MAX] (beyond that the increment
    overflows, which C++ leaves undefined). *)

Fixpoint for_range {S} (lo : Z) (n : nat) (body : Z → S → Res S) (s : S)
  : Res S :=
  match n with
  | O => Ok s
  | Datatypes.S n' => s' ← body lo s; for_range (lo + 1) n' body s'
  end.

Definition for_loop {S} (lo hi : Z) (body : Z → S → Res S) (s : S) : Res S :=
  for_range lo (Z.to_nat (hi - lo)) body s.

(** ** Tensors *)

Record Tensor (A : Type) := mkTensor {
  is_cuda : bool;
  sizes : list Z;
  data : list A
}.
Arguments mkTensor {A} _ _ _.
Arguments is_cuda {A} _.
Arguments sizes {A} _.
Arguments data {A} _.

Definition prod_sizes (s : list Z) : Z := foldr Z.mul 1 s.

Definition numel {A} (t : Tensor A) : Z := prod_sizes (sizes t).

Definition dim {A} (t : Tensor A) : Z := Z.of_nat (length (sizes t)).

(** [t.size(d)], where a negative [d] counts from the last dimension. *)
Definition size {A} (t : Tensor A) (d : Z) : Res Z :=
  let d' := if d <? 0 then d + dim t else d in
  if (0 <=? d') && (d' <? dim t) then read (sizes t) d'
  else Throw IndexError.

Definition CHECK_CPU {A} (x : Tensor A) : Res unit :=
  if is_cuda x then Throw NotCPU else Ok ().

Definition AT_ASSERTM (c : bool) : Res unit :=
  if c then Ok () else Throw InputMismatch.

(** The storage of a tensor agrees with its shape. *)
Definition tensor_ok {A} (t : Tensor A) : bool :=
  forallb (Z.leb 0) (sizes t) && (Z.of_nat (length (data t)) =? numel t).

(** ** Reduction kinds *)

Inductive ReductionType := SUM | MEAN | MIN | MAX.

#[export] Instance ReductionType_eq_dec : EqDecision ReductionType.
Proof. solve_decision. Defined.

Definition reduce2REDUCE : gmap string ReductionType :=
  <["sum" := SUM]> (<["add" := SUM]> (<["mean" := MEAN]>
    (<["min" := MIN]> (<["max" := MAX]> ∅)))).

(** [reduce2REDUCE.at(reduce)]. *)
Definition reduce2REDUCE_at (reduce : string) : Res ReductionType :=
  match reduce2REDUCE !! reduce with
  | Some r => Ok r
  | None => Throw OutOfRange
  end.

(** ** Element types *)

Class Scalar (T : Type) := {
  s_zero : T;                 (* (scalar_t)0 *)
  s_add : T → T → T;          (* x + y *)
  s_mul : T → T → T;          (* x * y *)
  s_lt : T → T → bool;        (* x < y *)
  s_max : T;                  (* std::numeric_limits<scalar_t>::max() *)
  s_lowest : T;               (* std::numeric_limits<scalar_t>::lowest() *)
  s_of_int : Z → T;           (* (scalar_t)c for an int c *)
  s_div : T → T → option T;   (* x / y, undefined where C++ leaves it so *)
  s_div_int : T → Z → T       (* x / c for an int c >= 1, after the usual
                                 arithmetic conversions, stored back as
                                 scalar_t *)
}.

(** The integral element types of [AT_DISPATCH_ALL_TYPES]. *)
Inductive IntKind := U8 | I8 | I16 | I32 | I64.

Definition int_lo (k : IntKind) : Z :=
  match k with
  | U8 => 0
  | I8 => - 2 ^ 7
  | I16 => - 2 ^ 15
  | I32 => - 2 ^ 31
  | I64 => - 2 ^ 63
  end.

Definition int_hi (k : IntKind) : Z :=
  match k with
  | U8 => 2 ^ 8 - 1
  | I8 => 2 ^ 7 - 1
  | I16 => 2 ^ 15 - 1
  | I32 => 2 ^ 31 - 1
  | I64 => 2 ^ 63 - 1
  end.

(** Reduction of a mathematical integer into the range of the type. *)
Definition int_wrap (k : IntKind) (z : Z) : Z :=
  (z - int_lo k) `mod` (int_hi k - int_lo k + 1) + int_lo k.

Definition in_range (k : IntKind) (z : Z) : bool :=
  (int_lo k <=? z) && (z <=? int_hi k).

(** Integer division truncates toward zero; a zero divisor is undefined,
    and so is the one quotient that overflows at the widths where the
    division is carried out at the width of the type itself. *)
Definition int_div (k : IntKind) (x y : Z) : option Z :=
  if y =? 0 then None
  else if (x =? int_lo k) && (y =? -1) &&
          match k with I32 | I64 => true | _ => false end then None
  else Some (int_wrap k (x ÷ y)).

Definition IntScalar (k : IntKind) : Scalar Z := {|
  s_zero := 0;
  s_add x y := int_wrap k (x + y);
  s_mul x y := int_wrap k (x * y);
  s_lt x y := x <? y;
  s_max := int_hi k;
  s_lowest := int_lo k;
  s_of_int c := int_wrap k c;
  s_div := int_div k;
  s_div_int x c := int_wrap k (x ÷ c)
|}.

(** ** The reduction policy: [struct Reducer] *)

Section Kernels.
Context {T : Type} `{Scalar T}.

Definition Reducer_init (REDUCE : ReductionType) : T :=
  match REDUCE with
  | MIN => s_max
  | MAX => s_lowest
  | _ => s_zero
  end.

(** [update(&val, new_val, &arg, new_arg)]: the pair [( *val, *arg)]
    after the call. The test [new_val > *val] of Max is [*val < new_val]. *)
Definition Reducer_update (REDUCE : ReductionType)
    (val new_val : T) (arg new_arg : Z) : T * Z :=
  match REDUCE with
  | SUM | MEAN => (s_add val new_val, arg)
  | MIN => if s_lt new_val val then (new_val, new_arg) else (val, arg)
  | MAX => if s_lt val new_val then (new_val, new_arg) else (val, arg)
  end.

(** [write(address, val, arg_address, arg, count)] on the output buffer
    [out] and the index buffer [aout] ([None] is [nullptr]). *)
Definition Reducer_write (REDUCE : ReductionType)
    (out : list T) (address : Z) (val : T)
    (aout : option (list Z)) (arg_address : Z) (arg : Z) (count : Z)
  : Res (list T * option (list Z)) :=
  match REDUCE with
  | SUM => out' ← write out address val; Ok (out', aout)
  | MEAN =>
      out' ← write out address
               (s_div_int val (if 0 <? count then count else 1));
      Ok (out', aout)
  | MIN | MAX =>
      if 0 <? count then
        out' ← write out address val;
        aout' ← write_ptr aout arg_address arg;
        Ok (out', aout')
      else
        out' ← write out address s_zero; Ok (out', aout)
  end.

(** ** The forward kernel: [spmm] *)

(** The body of the loop over the entries of a row (lines 151-162): the
    scratch vectors [vals] and [args] after entry [e] has been folded
    in. *)
Definition spmm_entry (REDUCE : ReductionType)
    (col_data : list Z) (value_data : option (list T)) (mat_data : list T)
    (K offset : Z) (e : Z) (st : list T * list Z) : Res (list T * list Z) :=
  c ← read col_data e;
  val ← match value_data with
        | Some vd => v ← read vd e; Ok (Some v)
        | None => Ok None
        end;
  for_loop 0 K (λ k va,
    x ← read mat_data (offset + c * K + k);
    let new_val := match val with Some v => s_mul v x | None => x end in
    v0 ← read va.1 k;
    a0 ← read va.2 k;
    let u := Reducer_update REDUCE v0 new_val a0 e in
    vals' ← write va.1 k u.1;
    args' ← write va.2 k u.2;
    Ok (vals', args')) st.

(** The local state of the kernel: [vals], [args], and the storage of
    [out] and of [arg_out]. *)
Definition kstate : Type := list T * list Z * list T * option (list Z).

(** The body of the loop over the output rows (lines 144-168). *)
Definition spmm_row (REDUCE : ReductionType)
    (rowptr_data col_data : list Z) (value_data : option (list T))
    (mat_data : list T) (M N K : Z) (b m : Z) (st : kstate) : Res kstate :=
  let '(vals, args, out_data, arg_out_data) := st in
  row_start ← read rowptr_data m;
  row_end ← read rowptr_data (m + 1);
  vals ← for_loop 0 K (λ k vals, write vals k (Reducer_init REDUCE)) vals;
  let offset := to_int (b * N * K) in
  va ← for_loop (to_int row_start) row_end
         (spmm_entry REDUCE col_data value_data mat_data K offset)
         (vals, args);
  let offset := to_int (b * M * K + m * K) in
  oa ← for_loop 0 K (λ k oa,
         val ← read va.1 k;
         arg ← read va.2 k;
         Reducer_write REDUCE oa.1 (offset + k) val
                       oa.2 (offset + k) arg
                       (to_int (row_end - row_start)))
         (out_data, arg_out_data);
  Ok (va.1, va.2, oa.1, oa.2).

(** The two outer loops (lines 142-170). *)
Definition spmm_kernel (REDUCE : ReductionType)
    (rowptr_data col_data : list Z) (value_data : option (list T))
    (mat_data : list T) (B M N K : Z) (st : kstate) : Res kstate :=
  for_loop 0 B (λ b st,
    for_loop 0 M (λ m st,
      spmm_row REDUCE rowptr_data col_data value_data mat_data M N K b m st)
      st) st.

(** [torch::empty(shape)]: the contents are whatever the allocator
    returns, here the arbitrary [garbage]. *)
Definition torch_empty (garbage : nat → T) (shape : list Z) : Res (Tensor T) :=
  if forallb (Z.leb 0) shape then
    Ok (mkTensor false shape
          (garbage <$> seq 0 (Z.to_nat (prod_sizes shape))))
  else Throw NegativeDimension.

(** [torch::full_like(t, c)] with an [int64_t] element type. *)
Definition full_like (t : Tensor T) (c : Z) : Tensor Z :=
  mkTensor false (sizes t) (replicate (length (data t)) c).

(** [torch::zeros(n)]. *)
Definition torch_zeros (n : Z) : Res (Tensor T) :=
  if 0 <=? n then Ok (mkTensor false [n] (replicate (Z.to_nat n) s_zero))
  else Throw NegativeDimension.

(** [x / y] on [int64_t]. *)
Definition div64 (x y : Z) : Res Z :=
  if y =? 0 then Undef else Ok (x ÷ y).

Definition opt_check {A} (c : Tensor A → Res unit) (o : option (Tensor A))
  : Res unit :=
  match o with
  | Some v => c v
  | None => Ok ()
  end.

(** [std::make_tuple(out, arg_out)] on the final state of the kernel. *)
Definition spmm_result (shape : list Z) (st : kstate)
  : Tensor T * option (Tensor Z) :=
  (mkTensor false shape st.1.2, mkTensor false shape <$> st.2).

Definition spmm (garbage : nat → T) (rowptr col : Tensor Z)
    (value_opt : option (Tensor T)) (mat : Tensor T) (reduce : string)
  : Res (Tensor T * option (Tensor Z)) :=
  CHECK_CPU rowptr;;
  CHECK_CPU col;;
  opt_check CHECK_CPU value_opt;;
  CHECK_CPU mat;;
  AT_ASSERTM (dim rowptr =? 1);;
  AT_ASSERTM (dim col =? 1);;
  opt_check (λ v, AT_ASSERTM (dim v =? 1)) value_opt;;
  AT_ASSERTM (2 <=? dim mat);;
  sizes' ← write (sizes mat) (dim mat - 2) (numel rowptr - 1);
  out ← torch_empty garbage sizes';
  r ← reduce2REDUCE_at reduce;
  let arg_out :=
    match r with
    | MIN | MAX => Some (full_like out (numel col))
    | _ => None
    end in
  let M := numel rowptr - 1 in
  N ← size mat (-2);
  K ← size mat (-1);
  B ← div64 (numel mat) (N * K);
  let vals := replicate (Z.to_nat K) s_zero in
  let args := replicate (Z.to_nat K) 0 in
  REDUCE ← reduce2REDUCE_at reduce;
  st ← spmm_kernel REDUCE (data rowptr) (data col) (data <$> value_opt)
                   (data mat) B M N K
                   (vals, args, data out, data <$> arg_out);
  Ok (spmm_result (sizes out) st).

(** ** The backward kernel for the values: [spmm_val_bw] *)

(** The normalisation of line 216-219. *)
Definition bw_normalize (REDUCE : ReductionType) (rowptr_data : list Z)
    (row : Z) (val : T) : Res T :=
  match REDUCE with
  | MEAN =>
      rs ← read rowptr_data row;
      re ← read rowptr_data (row + 1);
      let row_start := to_int rs in
      let row_end := to_int re in
      match s_div val (s_of_int (Z.max (to_int (row_end - row_start)) 1)) with
      | Some v => Ok v
      | None => Undef
      end
  | _ => Ok val
  end.

(** The body of the loop over the entries (lines 211-220). *)
Definition bw_entry (REDUCE : ReductionType)
    (row_data rowptr_data col_data : list Z) (mat_data grad_data : list T)
    (M N K : Z) (b e : Z) (out_data : list T) : Res (list T) :=
  row ← read row_data e;
  col ← read col_data e;
  val ← for_loop 0 K (λ k val,
           x ← read mat_data (b * N * K + col * K + k);
           g ← read grad_data (b * M * K + row * K + k);
           Ok (s_add val (s_mul x g))) s_zero;
  val ← bw_normalize REDUCE rowptr_data row val;
  o ← read out_data e;
  write out_data e (s_add o val).

Definition spmm_val_bw (row rowptr col : Tensor Z) (mat grad : Tensor T)
    (reduce : string) : Res (Tensor T) :=
  CHECK_CPU row;;
  CHECK_CPU rowptr;;
  CHECK_CPU col;;
  CHECK_CPU mat;;
  CHECK_CPU grad;;
  M ← size grad (-2);
  N ← size mat (-2);
  let E := numel row in
  K ← size mat (-1);
  B ← div64 (numel mat) (N * K);
  out ← torch_zeros E;
  REDUCE ← reduce2REDUCE_at reduce;
  out_data ←
    for_loop 0 B (λ b out_data,
      for_loop 0 E (λ e out_data,
        bw_entry REDUCE (data row) (data rowptr) (data col)
                 (data mat) (data grad) M N K b e out_data) out_data)
      (data out);
  Ok (mkTensor false (sizes out) out_data).

End Kernels.

(** ** What the kernels are meant to compute

    The quantities the properties below are stated with: the entries of
    a row, the weighted contribution of an entry, and the reduction of a
    row's contributions in the order of the entries. *)

Section Reference.
Context {T : Type} `{Scalar T}.

Definition at_ (p : list T) (i : Z) : T := default s_zero (p !! Z.to_nat i).

Definition atZ (p : list Z) (i : Z) : Z := default 0 (p !! Z.to_nat i).

(** [rowptr[m+1] - rowptr[m]]. *)
Definition row_degree (rowptr_data : list Z) (m : Z) : Z :=
  atZ rowptr_data (m + 1) - atZ rowptr_data m.

(** The entries [rowptr[m], rowptr[m]+1, ..., rowptr[m+1]-1] of row [m]. *)
Definition row_entries (rowptr_data : list Z) (m : Z) : list Z :=
  seqZ (atZ rowptr_data m) (row_degree rowptr_data m).

(** [dense[b, c, k]] for a dense operand of shape [(B, N, K)]. *)
Definition dense (mat_data : list T) (N K : Z) (b c k : Z) : T :=
  at_ mat_data (b * N * K + c * K + k).

(** [weight(e) * dense[b, col[e], k]]; without a value tensor the weight
    is an implicit one and the contribution is the dense element itself. *)
Definition contribution (col_data : list Z) (value_data : option (list T))
    (mat_data : list T) (N K : Z) (b k : Z) (e : Z) : T :=
  let x := dense mat_data N K b (atZ col_data e) k in
  match value_data with
  | Some vd => s_mul (at_ vd e) x
  | None => x
  end.

(** The accumulator and its index after the entries [es] have been fed
    to [Reducer::update] in order. *)
Definition reduce_row (REDUCE : ReductionType) (f : Z → T) (es : list Z)
    (st : T * Z) : T * Z :=
  foldl (λ st e, Reducer_update REDUCE st.1 (f e) st.2 e) st es.

(** The sum of [f] over [es] in the element type, in the order of [es]. *)
Definition sum_over (f : Z → T) (es : list Z) : T :=
  foldl (λ acc e, s_add acc (f e)) s_zero es.

(** The value [Reducer::write] stores for the accumulator [v] of a row of
    [count] entries. *)
Definition written (REDUCE : ReductionType) (v : T) (count : Z) : T :=
  match REDUCE with
  | SUM => v
  | MEAN => s_div_int v (if 0 <? count then count else 1)
  | MIN | MAX => if 0 <? count then v else s_zero
  end.

(** Whether [Reducer::write] stores through [arg_address]. *)
Definition is_minmax (REDUCE : ReductionType) : bool :=
  match REDUCE with
  | MIN | MAX => true
  | _ => false
  end.

Definition arg_store (REDUCE : ReductionType) (count : Z) : bool :=
  is_minmax REDUCE && (0 <? count).

(** The value of [out[b, m, k]] for each reduction. *)
Definition row_value (REDUCE : ReductionType)
    (rowptr_data col_data : list Z) (value_data : option (list T))
    (mat_data : list T) (N K : Z) (b m k : Z) : T :=
  written REDUCE
    (reduce_row REDUCE (contribution col_data value_data mat_data N K b k)
       (row_entries rowptr_data m) (Reducer_init REDUCE, 0)).1
    (row_degree rowptr_data m).

(** The CSR structure the kernel can walk without leaving its buffers:
    [rowptr] has [M + 1] entries, is non-decreasing and stays within the
    [E] entries of [col]; every column index is below [N]; and the entry
    count fits the [int] loop variable. *)
Definition csr_ok (rowptr_data col_data : list Z) (M N : Z) : Prop :=
  Z.of_nat (length rowptr_data) = M + 1 ∧
  (∀ m, 0 ≤ m < M →
     0 ≤ atZ rowptr_data m ≤ atZ rowptr_data (m + 1) ∧
     atZ rowptr_data (m + 1) ≤ Z.of_nat (length col_data)) ∧
  (∀ e, 0 ≤ e < Z.of_nat (length col_data) → 0 ≤ atZ col_data e < N) ∧
  Z.of_nat (length col_data) ≤ INT_MAX.

Definition value_ok (col_data : list Z) (value_data : option (list T)) : Prop :=
  ∀ vd, value_data = Some vd → length vd = length col_data.

(** The dense operand holds [B] batches of [N * K] elements, the output
    [B] batches of [M * K], and both are indexed with [int] offsets. *)
Definition dims_ok (B M N K : Z) (mat_data out_data : list T) : Prop :=
  0 ≤ B ∧ 0 ≤ M ∧ 0 ≤ N ∧ 0 ≤ K ∧
  Z.of_nat (length mat_data) = B * N * K ∧ B * N * K ≤ INT_MAX ∧
  Z.of_nat (length out_data) = B * M * K ∧ B * M * K ≤ INT_MAX.

(** What holds of the kernel state when the rows before flat row [j]
    (row [m] of batch [b] is flat row [b * M + m]) have been written. *)
Definition rows_done (REDUCE : ReductionType)
    (rowptr_data col_data : list Z) (value_data : option (list T))
    (mat_data : list T) (B M N K : Z) (out : list T) (aout : option (list Z))
    (j : Z) (st : kstate) : Prop :=
  length st.1.1.1 = Z.to_nat K ∧ length st.1.1.2 = Z.to_nat K ∧
  length st.1.2 = length out ∧
  (∀ b m k, 0 ≤ b < B → 0 ≤ m < M → 0 ≤ k < K → b * M + m < j →
     st.1.2 !! Z.to_nat ((b * M + m) * K + k)
     = Some (row_value REDUCE rowptr_data col_data value_data mat_data
                       N K b m k)) ∧
  (if is_minmax REDUCE then
     ∃ al al', aout = Some al ∧ st.2 = Some al' ∧ length al' = length al ∧
       (∀ b m k, 0 ≤ b < B → 0 ≤ m < M → 0 ≤ k < K → b * M + m < j →
          if 0 <? row_degree rowptr_data m then
            ∃ a, al' !! Z.to_nat ((b * M + m) * K + k)
                 = Some (reduce_row REDUCE
                           (contribution col_data value_data mat_data N K b k)
                           (row_entries rowptr_data m)
                           (Reducer_init REDUCE, a)).2
          else al' !! Z.to_nat ((b * M + m) * K + k)
               = al !! Z.to_nat ((b * M + m) * K + k)) ∧
       (∀ i : nat, j * K ≤ Z.of_nat i → al' !! i = al !! i)
   else st.2 = aout).

(** The state of the forward kernel in a buffer of [n] output slots: the
    output and the index buffer keep their length, the index buffer stays
    present or absent, and every index in [args] and in the index buffer
    satisfies [P]. *)
Definition kstate_ok (P : Z → Prop) (n : nat) (indexed : bool)
    (st : @kstate T) : Prop :=
  Forall P st.1.1.2 ∧
  length st.1.2 = n ∧
  match st.2 with
  | Some al => indexed = true ∧ length al = n ∧ Forall P al
  | None => indexed = false
  end.

(** Two kernel states that differ at most in the contents of [out]. *)
Definition same_but_out (st st' : @kstate T) : Prop :=
  st.1.1 = st'.1.1 ∧ length st.1.2 = length st'.1.2 ∧ st.2 = st'.2.

End Reference.

(** ** Well-formed arguments

    The shapes the operators read off their arguments, and the
    preconditions of section 3 of the data model as one decidable check. *)

Definition size_or0 {A} (t : Tensor A) (d : Z) : Z :=
  match size t d with
  | Ok n => n
  | _ => 0
  end.

(** [M], [N], [K] and [B] as [spmm] computes them. *)
Definition rows_M (rowptr : Tensor Z) : Z := numel rowptr - 1.
Definition cols_N {A} (mat : Tensor A) : Z := size_or0 mat (-2).
Definition feat_K {A} (mat : Tensor A) : Z := size_or0 mat (-1).
Definition batch_B {A} (mat : Tensor A) : Z :=
  numel mat ÷ (cols_N mat * feat_K mat).

Fixpoint nondecreasing (l : list Z) : bool :=
  match l with
  | x :: t => match t with
              | y :: _ => (x <=? y) && nondecreasing t
              | [] => true
              end
  | [] => true
  end.

Definition on_cpu {A} (t : Tensor A) : bool := negb (is_cuda t).

Definition opt_all {A} (p : Tensor A → bool) (o : option (Tensor A)) : bool :=
  match o with
  | Some v => p v
  | None => true
  end.

(** A CSR matrix with [numel rowptr - 1] rows over the columns of [mat]:
    rank-1 index tensors on the CPU, a non-decreasing [rowptr] that stays
    within the entries of [col], column indices below [N], one value per
    entry when values are given; a dense operand of rank at least two
    with [N, K > 0]; and buffers small enough for the kernel's [int]
    offsets. *)
Definition spmm_wf {A} (rowptr col : Tensor Z) (value_opt : option (Tensor A))
    (mat : Tensor A) : bool :=
  on_cpu rowptr && on_cpu col && opt_all on_cpu value_opt && on_cpu mat
  && (dim rowptr =? 1) && (dim col =? 1)
  && opt_all (λ v, dim v =? 1) value_opt && (2 <=? dim mat)
  && tensor_ok rowptr && tensor_ok col && opt_all tensor_ok value_opt
  && tensor_ok mat
  && (1 <=? numel rowptr)
  && opt_all (λ v, numel v =? numel col) value_opt
  && (0 <? cols_N mat) && (0 <? feat_K mat)
  && (numel mat <=? INT_MAX)
  && (batch_B mat * rows_M rowptr * feat_K mat <=? INT_MAX)
  && (numel col <=? INT_MAX)
  && nondecreasing (data rowptr)
  && forallb (λ p, (0 <=? p) && (p <=? numel col)) (data rowptr)
  && forallb (λ c, (0 <=? c) && (c <? cols_N mat)) (data col).

(** ** What the backward kernel is meant to compute *)

Section BackwardReference.
Context {T : Type} `{Scalar T}.

(** The dot product over the features of [dense[b, col[e], :]] and
    [grad[b, row[e], :]], accumulated from feature 0 upwards. *)
Definition dot (row_data col_data : list Z) (mat_data grad_data : list T)
    (M N K : Z) (b e : Z) : T :=
  foldl (λ acc k,
           s_add acc
             (s_mul (dense mat_data N K b (atZ col_data e) k)
                    (dense grad_data M K b (atZ row_data e) k)))
        s_zero (seqZ 0 K).

(** The divisor of the Mean normalisation for entry [e]. *)
Definition bw_count (row_data rowptr_data : list Z) (e : Z) : Z :=
  Z.max (row_degree rowptr_data (atZ row_data e)) 1.

(** The contribution of batch [b] to [out[e]]: the dot product, divided
    by the count under Mean. *)
Definition bw_term (REDUCE : ReductionType)
    (row_data rowptr_data col_data : list Z) (mat_data grad_data : list T)
    (M N K : Z) (b e : Z) : T :=
  let d := dot row_data col_data mat_data grad_data M N K b e in
  match REDUCE with
  | MEAN => s_div_int d (bw_count row_data rowptr_data e)
  | _ => d
  end.

(** The contributions of the batches [0 .. B-1] added up in that order,
    starting from zero. *)
Definition bw_value (REDUCE : ReductionType)
    (row_data rowptr_data col_data : list Z) (mat_data grad_data : list T)
    (B M N K : Z) (e : Z) : T :=
  foldl (λ acc b,
           s_add acc (bw_term REDUCE row_data rowptr_data col_data
                              mat_data grad_data M N K b e))
        s_zero (seqZ 0 B).

(** The element type divides by the count of entry [e] exactly as an
    integer count divides: the conversion of the count to the element
    type loses nothing and the division is defined. *)
Definition count_exact (row_data rowptr_data col_data : list Z)
    (mat_data grad_data : list T) (M N K : Z) (b e : Z) : Prop :=
  let d := dot row_data col_data mat_data grad_data M N K b e in
  let c := bw_count row_data rowptr_data e in
  s_div d (s_of_int c) = Some (s_div_int d c).

(** The buffers the backward kernel can walk without leaving them. *)
Definition bw_ok (REDUCE : ReductionType)
    (row_data rowptr_data col_data : list Z) (mat_data grad_data : list T)
    (B M N K : Z) : Prop :=
  0 ≤ B ∧ 0 ≤ M ∧ 0 ≤ N ∧ 0 ≤ K ∧
  Z.of_nat (length mat_data) = B * N * K ∧
  Z.of_nat (length grad_data) = B * M * K ∧
  length col_data = length row_data ∧
  (∀ e, 0 ≤ e < Z.of_nat (length row_data) →
     0 ≤ atZ col_data e < N ∧ 0 ≤ atZ row_data e < M) ∧
  (REDUCE = MEAN →
     M < Z.of_nat (length rowptr_data) ∧
     (∀ i, 0 ≤ i < Z.of_nat (length rowptr_data) →
           0 ≤ atZ rowptr_data i ≤ INT_MAX) ∧
     (∀ b e, 0 ≤ b < B → 0 ≤ e < Z.of_nat (length row_data) →
        count_exact row_data rowptr_data col_data mat_data grad_data
                    M N K b e)).

End BackwardReference.

Definition size_M {A} (grad : Tensor A) : Z := size_or0 grad (-2).

(** The arguments of [spmm_val_bw] in the shapes of the data model:
    tensors on the CPU whose storage agrees with their shape, a dense
    operand [(B, N, K)] and a gradient of [B * M * K] elements, one row
    and one column index per entry, each within its range; and, under
    Mean, a [rowptr] over the [M] rows whose entries fit an [int]. *)
Definition bw_wf {A} (REDUCE : ReductionType) (row rowptr col : Tensor Z)
    (mat grad : Tensor A) : bool :=
  on_cpu row && on_cpu rowptr && on_cpu col && on_cpu mat && on_cpu grad
  && tensor_ok row && tensor_ok col && tensor_ok mat && tensor_ok grad
  && (2 <=? dim mat) && (2 <=? dim grad)
  && (0 <? cols_N mat) && (0 <? feat_K mat)
  && (numel grad =? batch_B mat * size_M grad * feat_K mat)
  && (numel col =? numel row)
  && forallb (λ r, (0 <=? r) && (r <? size_M grad)) (data row)
  && forallb (λ c, (0 <=? c) && (c <? cols_N mat)) (data col)
  && match REDUCE with
     | MEAN =>
         (size_M grad <? Z.of_nat (length (data rowptr)))
         && forallb (λ p, (0 <=? p) && (p <=? INT_MAX)) (data rowptr)
     | _ => true
     end.

(** ** Min and Max on the integral element types *)

(** [x] replaces the accumulator [v]: it is strictly below [v] under Min
    and strictly above it under Max. *)
Definition better (REDUCE : ReductionType) (x v : Z) : bool :=
  match REDUCE with
  | MIN => x <? v
  | MAX => v <? x
  | _ => false
  end.

(** The better of the accumulator [v] and the candidate [x], the
    accumulator winning ties. *)
Definition best (REDUCE : ReductionType) (v x : Z) : Z :=
  if better REDUCE x v then x else v.

(** Two outcomes that fail alike or return related results. *)
Definition res_rel {A B} (R : A → B → Prop) (m : Res A) (m' : Res B) : Prop :=
  match m, m' with
  | Ok a, Ok b => R a b
  | Throw e, Throw e' => e = e'
  | Undef, Undef => True
  | _, _ => False
  end.

(** ** Concrete operands

    The 2 x 2 matrix with row 0 = {(0, 1), (1, 2)} and row 1 = {(0, 3)}
    in CSR and coordinate form, and a dense operand of shape (1, 2, 1). *)

Definition tensor1 {A} (l : list A) : Tensor A :=
  mkTensor false [Z.of_nat (length l)] l.

Definition ex_rowptr : Tensor Z := tensor1 [0; 2; 3].
Definition ex_col : Tensor Z := tensor1 [0; 1; 0].
Definition ex_row : Tensor Z := tensor1 [0; 0; 1].
Definition ex_value : Tensor Z := tensor1 [1; 2; 3].
Definition ex_mat : Tensor Z := mkTensor false [1; 2; 1] [5; 7].
Definition ex_grad : Tensor Z := mkTensor false [1; 2; 1] [10; 100].

(** A single row of 255 entries, all in column 0, for [int8_t] tensors of
    shape (1, 1, 1). *)
Definition wide_row : Tensor Z := tensor1 (replicate 255%nat 0).
Definition wide_col : Tensor Z := tensor1 (replicate 255%nat 0).
Definition wide_rowptr : Tensor Z := tensor1 [0; 255].
Definition one_mat : Tensor Z := mkTensor false [1; 1; 1] [1].
Definition one_grad : Tensor Z := mkTensor false [1; 1; 1] [1].

(** Two rows over a dense operand of shape (1, 2, 1) whose second row
    holds 255, the largest [uint8_t]. *)
Definition top_mat : Tensor Z := mkTensor false [1; 2; 1] [7; 255].
Definition top_rowptr : Tensor Z := tensor1 [0; 1; 2].
Definition top_col : Tensor Z := tensor1 [0; 1].

(** The same operand with a second row of two entries that tie. *)
Definition tie_rowptr : Tensor Z := tensor1 [0; 1; 3].
Definition tie_col : Tensor Z := tensor1 [0; 1; 1].

(** Arguments for [spmm_val_bw] whose shapes do not fit together: [row]
    and [rowptr] of rank 2, three column indices for two entries, and a
    gradient with three rows where [rowptr] describes one. *)
Definition odd_row : Tensor Z := mkTensor false [2; 1] [0; 0].
Definition odd_rowptr : Tensor Z := mkTensor false [1; 2] [0; 2].
Definition odd_col : Tensor Z := tensor1 [0; 0; 0].
Definition odd_mat : Tensor Z := mkTensor false [1; 1] [5].
Definition odd_grad : Tensor Z := mkTensor false [3; 1] [2; 9; 9].

(** The 2 x 2 example with the two entries of row 0 exchanged. *)
Definition swap_col : Tensor Z := tensor1 [1; 0; 0].
Definition swap_value : Tensor Z := tensor1 [2; 1; 3].

(** Explicit unit weights for the three entries of the example. *)
Definition unit_value : Tensor Z := tensor1 [1; 1; 1].

(** Some contents for freshly allocated storage. *)
Definition ex_garbage : nat → Z := λ i, 77 + Z.of_nat i.

(** * Properties *)

(** ** Buffers and loops *)

Lemma read_Ok {A} (p : list A) (i : Z) (x : A) :
  0 ≤ i → p !! Z.to_nat i = Some x → read p i = Ok x.
Proof.
  intros Hi Hx. unfold read.
  destruct (Z.ltb_spec i 0); [lia |]. by rewrite Hx.
Qed.

Lemma read_in_range {A} (p : list A) (i : Z) :
  0 ≤ i < Z.of_nat (length p) → ∃ x, read p i = Ok x ∧ p !! Z.to_nat i = Some x.
Proof.
  intros Hi. destruct (lookup_lt_is_Some_2 p (Z.to_nat i)) as [x Hx]; [lia |].
  exists x. split; [apply read_Ok; [lia | done] | done].
Qed.

Lemma write_Ok {A} (p : list A) (i : Z) (x : A) :
  0 ≤ i < Z.of_nat (length p) → write p i x = Ok (<[Z.to_nat i := x]> p).
Proof.
  intros Hi. unfold write.
  destruct (Z.leb_spec 0 i); [| lia].
  destruct (Z.ltb_spec i (Z.of_nat (length p))); [done | lia].
Qed.

Lemma to_int_small (z : Z) : - 2 ^ 31 ≤ z ≤ INT_MAX → to_int z = z.
Proof.
  unfold to_int, INT_MAX. intros Hz.
  rewrite Z.mod_small; lia.
Qed.

(** The Hoare rule of the counted loop: an invariant that every
    iteration re-establishes holds when the loop is left, and the loop
    does return. *)
Lemma for_range_inv {S} (I : Z → S → Prop) (body : Z → S → Res S)
    (n : nat) (lo : Z) (s : S) :
  I lo s →
  (∀ i s, lo ≤ i < lo + Z.of_nat n → I i s →
          ∃ s', body i s = Ok s' ∧ I (i + 1) s') →
  ∃ s', for_range lo n body s = Ok s' ∧ I (lo + Z.of_nat n) s'.
Proof.
  revert lo s. induction n as [| n IH]; intros lo s H0 Hstep.
  - exists s. split; [done |]. by replace (lo + Z.of_nat 0) with lo by lia.
  - destruct (Hstep lo s) as (s1 & Hb & H1); [lia | done |].
    destruct (IH (lo + 1) s1) as (s2 & Hr & H2); [done | |].
    + intros i s' Hi. apply Hstep. lia.
    + exists s2. simpl. rewrite Hb. simpl. split; [done |].
      by replace (lo + Z.of_nat (Datatypes.S n)) with (lo + 1 + Z.of_nat n) by lia.
Qed.

Lemma for_loop_inv {S} (I : Z → S → Prop) (body : Z → S → Res S)
    (lo hi : Z) (s : S) :
  lo ≤ hi →
  I lo s →
  (∀ i s, lo ≤ i < hi → I i s → ∃ s', body i s = Ok s' ∧ I (i + 1) s') →
  ∃ s', for_loop lo hi body s = Ok s' ∧ I hi s'.
Proof.
  intros Hle H0 Hstep. unfold for_loop.
  destruct (for_range_inv I body (Z.to_nat (hi - lo)) lo s) as (s' & Hr & Hi);
    [done | | ].
  - intros i s0 Hi. apply Hstep. lia.
  - exists s'. split; [done |].
    by replace (lo + Z.of_nat (Z.to_nat (hi - lo))) with hi in Hi by lia.
Qed.

(** Two loops whose bodies agree agree. *)
Lemma for_range_ext {S} (f g : Z → S → Res S) (n : nat) (lo : Z) (s : S) :
  (∀ i s, f i s = g i s) → for_range lo n f s = for_range lo n g s.
Proof.
  intros Hfg. revert lo s. induction n as [| n IH]; intros lo s; [done |].
  simpl. rewrite Hfg. destruct (g lo s); simpl; [apply IH | done | done].
Qed.

(** ** Shapes *)

Lemma sizes_split (l : list Z) :
  (2 ≤ length l)%nat → ∃ lead N K, l = lead ++ [N; K].
Proof.
  intros Hl. exists (take (length l - 2) l).
  assert (Hd : length (drop (length l - 2) l) = 2%nat)
    by (rewrite length_drop; lia).
  destruct (drop (length l - 2) l) as [| N [| K [| ? ?]]] eqn:Hdrop;
    simpl in Hd; try lia.
  exists N, K. rewrite <- Hdrop. symmetry. apply take_drop.
Qed.

Lemma prod_sizes_app (a b : list Z) :
  prod_sizes (a ++ b) = prod_sizes a * prod_sizes b.
Proof.
  unfold prod_sizes. induction a as [| x a IH]; simpl; [lia |].
  rewrite IH. lia.
Qed.

Lemma size_last {A} (t : Tensor A) (lead : list Z) (N K : Z) :
  sizes t = lead ++ [N; K] → size t (-1) = Ok K ∧ size t (-2) = Ok N.
Proof.
  intros Hs. unfold size, dim. rewrite Hs, length_app. simpl.
  split.
  - destruct (Z.leb_spec 0 (-1 + Z.of_nat (length lead + 2))); [| lia].
    destruct (Z.ltb_spec (-1 + Z.of_nat (length lead + 2))
                         (Z.of_nat (length lead + 2))); [| lia].
    simpl. apply read_Ok; [lia |].
    replace (Z.to_nat (-1 + Z.of_nat (length lead + 2)))
      with (length lead + 1)%nat by lia.
    rewrite lookup_app_r; [| lia].
    by replace (length lead + 1 - length lead)%nat with 1%nat by lia.
  - destruct (Z.leb_spec 0 (-2 + Z.of_nat (length lead + 2))); [| lia].
    destruct (Z.ltb_spec (-2 + Z.of_nat (length lead + 2))
                         (Z.of_nat (length lead + 2))); [| lia].
    simpl. apply read_Ok; [lia |].
    replace (Z.to_nat (-2 + Z.of_nat (length lead + 2)))
      with (length lead + 0)%nat by lia.
    rewrite lookup_app_r; [| lia].
    by replace (length lead + 0 - length lead)%nat with 0%nat by lia.
Qed.

(** [sizes[mat.dim() - 2] = M]. *)
Lemma write_rows (lead : list Z) (N K M : Z) :
  write (lead ++ [N; K]) (Z.of_nat (length (lead ++ [N; K])) - 2) M
  = Ok (lead ++ [M; K]).
Proof.
  rewrite write_Ok; [| rewrite length_app; simpl; lia].
  f_equal. rewrite length_app. simpl.
  replace (Z.to_nat (Z.of_nat (length lead + 2) - 2))
    with (length lead + 0)%nat by lia.
  by rewrite insert_app_r.
Qed.

Lemma rank1_numel {A} (t : Tensor A) :
  dim t = 1 → tensor_ok t = true →
  sizes t = [numel t] ∧ Z.of_nat (length (data t)) = numel t ∧ 0 ≤ numel t.
Proof.
  unfold dim, tensor_ok, numel. intros Hd Hok.
  apply andb_prop in Hok as [Hpos Hlen].
  destruct (sizes t) as [| n [| ? ?]]; simpl in *; try lia.
  apply andb_prop in Hpos as [Hn _].
  replace (n * 1) with n in * by lia.
  repeat split; [lia | lia].
Qed.

Lemma atZ_lookup (p : list Z) (i : Z) :
  0 ≤ i < Z.of_nat (length p) → p !! Z.to_nat i = Some (atZ p i).
Proof.
  intros Hi. destruct (lookup_lt_is_Some_2 p (Z.to_nat i)) as [x Hx]; [lia |].
  unfold atZ. by rewrite Hx.
Qed.

Lemma nondecreasing_at (l : list Z) (i : Z) :
  nondecreasing l = true → 0 ≤ i → i + 1 < Z.of_nat (length l) →
  atZ l i ≤ atZ l (i + 1).
Proof.
  intros Hs Hi Hlt.
  assert (Hnat : ∀ (n : nat) l, nondecreasing l = true →
            (n + 1 < length l)%nat →
            default 0 (l !! n) ≤ default 0 (l !! (n + 1)%nat)).
  { clear. induction n as [| n IH]; intros l Hs Hn.
    - destruct l as [| x [| y t]]; simpl in *; lia.
    - destruct l as [| x [| y t]]; simpl in *; try lia.
      apply andb_prop in Hs as [_ Ht].
      apply (IH (y :: t)); [done | simpl; lia]. }
  unfold atZ. replace (Z.to_nat (i + 1)) with (Z.to_nat i + 1)%nat by lia.
  apply Hnat; [done | lia].
Qed.

Lemma forallb_at (f : Z → bool) (l : list Z) (i : Z) :
  forallb f l = true → 0 ≤ i < Z.of_nat (length l) → f (atZ l i) = true.
Proof.
  intros Hf Hi.
  assert (HF : Forall f l) by (apply forallb_True; by rewrite Hf).
  apply Is_true_true.
  apply (Forall_lookup_1 _ _ (Z.to_nat i) _ HF). by apply atZ_lookup.
Qed.

(** ** The scratch vectors of a row *)

Section Forward.
Context {T : Type} `{Scalar T}.

(** After the initialisation loop every accumulator holds the identity
    of the reduction. *)
Lemma init_vals_spec (REDUCE : ReductionType) (K : Z) (vals : list T) :
  0 ≤ K → length vals = Z.to_nat K →
  for_loop 0 K (λ k vals, write vals k (Reducer_init REDUCE)) vals
  = Ok (replicate (Z.to_nat K) (Reducer_init REDUCE)).
Proof.
  intros HK Hlen.
  destruct (for_loop_inv
    (λ j (vs : list T), length vs = Z.to_nat K ∧
       ∀ i : nat, (Z.of_nat i < j) → (i < Z.to_nat K)%nat →
                  vs !! i = Some (Reducer_init REDUCE))
    (λ k vals, write vals k (Reducer_init REDUCE)) 0 K vals)
    as (vs & Hr & Hl & Hv); [lia | | | ].
  - split; [done | intros; lia].
  - intros i vs Hi [Hl Hv]. eexists. split; [apply write_Ok; lia |].
    split; [by rewrite length_insert |].
    intros j Hj Hj'. destruct (decide (j = Z.to_nat i)) as [-> | Hne].
    + apply list_lookup_insert_eq. lia.
    + rewrite list_lookup_insert_ne; [| done]. apply Hv; lia.
  - rewrite Hr. f_equal. apply list_eq. intros i.
    destruct (decide (i < Z.to_nat K)%nat) as [Hi | Hi].
    + rewrite Hv; [| lia | done]. symmetry. by apply lookup_replicate_2.
    + rewrite !lookup_ge_None_2; [done | rewrite length_replicate; lia | lia].
Qed.

(** One entry folded into the scratch vectors: every position [k] has
    been fed the contribution of the entry at feature [k], and the call
    does not leave the buffers. *)
Lemma spmm_entry_spec (REDUCE : ReductionType)
    (col_data : list Z) (value_data : option (list T)) (mat_data : list T)
    (N K b e : Z) (vals : list T) (args : list Z) :
  0 ≤ K → 0 ≤ b → 0 ≤ N →
  length vals = Z.to_nat K → length args = Z.to_nat K →
  0 ≤ e < Z.of_nat (length col_data) →
  0 ≤ atZ col_data e < N →
  (∀ vd, value_data = Some vd → e < Z.of_nat (length vd)) →
  (b + 1) * N * K ≤ Z.of_nat (length mat_data) →
  ∃ vals' args',
    spmm_entry REDUCE col_data value_data mat_data K (b * N * K) e (vals, args)
    = Ok (vals', args') ∧
    length vals' = Z.to_nat K ∧ length args' = Z.to_nat K ∧
    ∀ (k : nat) v a, vals !! k = Some v → args !! k = Some a →
      let u := Reducer_update REDUCE v
                 (contribution col_data value_data mat_data N K b (Z.of_nat k) e)
                 a e in
      vals' !! k = Some u.1 ∧ args' !! k = Some u.2.
Proof.
  intros HK Hb HN Hlv Hla He Hc Hval Hmat.
  unfold spmm_entry.
  destruct (read_in_range col_data e He) as (c & -> & Hcl). simpl.
  assert (Hc' : atZ col_data e = c) by (unfold atZ; by rewrite Hcl).
  rewrite Hc' in Hc.
  set (val := match value_data with
              | Some vd => Some (at_ vd e) | None => None end).
  assert (Hrv : match value_data with
                | Some vd => v ← read vd e; Ok (Some v)
                | None => Ok None
                end = Ok val).
  { subst val. destruct value_data as [vd |]; [| done].
    destruct (read_in_range vd e) as (v & -> & Hv).
    - specialize (Hval vd eq_refl). lia.
    - simpl. unfold at_. by rewrite Hv. }
  rewrite Hrv. simpl.
  assert (Hidx : ∀ k, 0 ≤ k < K →
            0 ≤ b * N * K + c * K + k < Z.of_nat (length mat_data)) by nia.
  assert (Hcontrib : ∀ k, 0 ≤ k < K → ∃ x,
            read mat_data (b * N * K + c * K + k) = Ok x ∧
            match val with Some v => s_mul v x | None => x end
            = contribution col_data value_data mat_data N K b k e).
  { intros k Hk. destruct (read_in_range mat_data _ (Hidx k Hk)) as (x & Hx & Hl).
    exists x. split; [done |].
    unfold contribution, dense, at_. rewrite Hc', Hl. simpl.
    subst val. by destruct value_data. }
  destruct (for_loop_inv
    (λ j (va : list T * list Z),
       length va.1 = Z.to_nat K ∧ length va.2 = Z.to_nat K ∧
       (∀ (k : nat) v a, Z.of_nat k < j →
          vals !! k = Some v → args !! k = Some a →
          let u := Reducer_update REDUCE v
                     (contribution col_data value_data mat_data N K b
                        (Z.of_nat k) e) a e in
          va.1 !! k = Some u.1 ∧ va.2 !! k = Some u.2) ∧
       (∀ k : nat, j ≤ Z.of_nat k →
          va.1 !! k = vals !! k ∧ va.2 !! k = args !! k))
    (λ k va,
       x ← read mat_data (b * N * K + c * K + k);
       let new_val := match val with Some v => s_mul v x | None => x end in
       v0 ← read va.1 k;
       a0 ← read va.2 k;
       let u := Reducer_update REDUCE v0 new_val a0 e in
       vals' ← write va.1 k u.1;
       args' ← write va.2 k u.2;
       Ok (vals', args')) 0 K (vals, args))
    as ([vs as_] & Hr & Hl1 & Hl2 & Hdone & _); [lia | | | ].
  - simpl. split; [done |]. split; [done |]. split; [intros; lia | done].
  - intros k [vs as_] Hk (Hl1 & Hl2 & Hdone & Htodo). simpl in *.
    destruct (Hcontrib k Hk) as (x & -> & Hx). simpl. rewrite Hx.
    destruct (read_in_range vs k) as (v0 & -> & Hv0); [lia |].
    destruct (read_in_range as_ k) as (a0 & -> & Ha0); [lia |]. simpl.
    rewrite write_Ok; [| lia]. simpl. rewrite write_Ok; [| lia]. simpl.
    eexists. split; [done |]. simpl.
    rewrite !length_insert. split; [done |]. split; [done |].
    destruct (Htodo (Z.to_nat k)) as [Hv Ha]; [lia |].
    rewrite Hv0 in Hv. rewrite Ha0 in Ha.
    split.
    + intros j v a Hj Hvj Haj.
      destruct (decide (j = Z.to_nat k)) as [-> | Hne].
      * rewrite <- Hv in Hvj. rewrite <- Ha in Haj.
        injection Hvj as <-. injection Haj as <-.
        rewrite Z2Nat.id; [| lia].
        rewrite !list_lookup_insert_eq; [done | lia | lia].
      * rewrite !list_lookup_insert_ne; [| done | done].
        apply Hdone; [lia | done | done].
    + intros j Hj. rewrite !list_lookup_insert_ne; [| lia | lia].
      apply Htodo. lia.
  - exists vs, as_. simpl in *. split; [done |]. split; [done |].
    split; [done |]. intros k v a Hv Ha. apply Hdone; [| done | done].
    apply lookup_lt_Some in Hv. lia.
Qed.

Lemma reduce_row_snoc (REDUCE : ReductionType) (f : Z → T) (es : list Z)
    (e : Z) (st : T * Z) :
  reduce_row REDUCE f (es ++ [e]) st
  = Reducer_update REDUCE (reduce_row REDUCE f es st).1 (f e)
                   (reduce_row REDUCE f es st).2 e.
Proof. unfold reduce_row. by rewrite foldl_app. Qed.

Lemma seqZ_snoc (lo len : Z) :
  0 ≤ len → seqZ lo (len + 1) = seqZ lo len ++ [lo + len].
Proof. intros Hlen. rewrite seqZ_app; [| lia | lia]. done. Qed.

(** The loop over the entries of a row: every accumulator has been fed
    the contributions of the entries [rs, ..., re-1] in that order. *)
Lemma spmm_entries_spec (REDUCE : ReductionType)
    (col_data : list Z) (value_data : option (list T)) (mat_data : list T)
    (N K b rs re : Z) (vals : list T) (args : list Z) :
  0 ≤ K → 0 ≤ b → 0 ≤ N →
  length vals = Z.to_nat K → length args = Z.to_nat K →
  0 ≤ rs ≤ re → re ≤ Z.of_nat (length col_data) →
  (∀ e, rs ≤ e < re → 0 ≤ atZ col_data e < N) →
  (∀ vd, value_data = Some vd → re ≤ Z.of_nat (length vd)) →
  (b + 1) * N * K ≤ Z.of_nat (length mat_data) →
  ∃ vals' args',
    for_loop rs re
      (spmm_entry REDUCE col_data value_data mat_data K (b * N * K))
      (vals, args) = Ok (vals', args') ∧
    length vals' = Z.to_nat K ∧ length args' = Z.to_nat K ∧
    ∀ (k : nat) v a, vals !! k = Some v → args !! k = Some a →
      let u := reduce_row REDUCE
                 (contribution col_data value_data mat_data N K b (Z.of_nat k))
                 (seqZ rs (re - rs)) (v, a) in
      vals' !! k = Some u.1 ∧ args' !! k = Some u.2.
Proof.
  intros HK Hb HN Hlv Hla Hrs Hre Hcol Hval Hmat.
  destruct (for_loop_inv
    (λ j (va : list T * list Z),
       length va.1 = Z.to_nat K ∧ length va.2 = Z.to_nat K ∧
       ∀ (k : nat) v a, vals !! k = Some v → args !! k = Some a →
         let u := reduce_row REDUCE
                    (contribution col_data value_data mat_data N K b
                       (Z.of_nat k))
                    (seqZ rs (j - rs)) (v, a) in
         va.1 !! k = Some u.1 ∧ va.2 !! k = Some u.2)
    (spmm_entry REDUCE col_data value_data mat_data K (b * N * K))
    rs re (vals, args)) as ([vs as_] & Hr & Hl1 & Hl2 & Hdone); [lia | | | ].
  - simpl. split; [done |]. split; [done |].
    intros k v a Hv Ha. replace (rs - rs) with 0 by lia. done.
  - intros e [vs as_] He (Hl1 & Hl2 & Hdone). simpl in *.
    destruct (spmm_entry_spec REDUCE col_data value_data mat_data N K b e
                vs as_) as (vs' & as' & Hs & Hl1' & Hl2' & Hstep);
      try done; try lia.
    + apply Hcol. lia.
    + intros vd Hvd. specialize (Hval vd Hvd). lia.
    + exists (vs', as'). split; [done |]. simpl.
      split; [done |]. split; [done |].
      intros k v a Hv Ha.
      destruct (Hdone k v a Hv Ha) as [Hv1 Ha1].
      replace (e + 1 - rs) with (e - rs + 1) by lia.
      rewrite seqZ_snoc; [| lia]. rewrite reduce_row_snoc.
      replace (rs + (e - rs)) with e by lia.
      by apply Hstep.
  - exists vs, as_. done.
Qed.

(** One call of [Reducer::write]. *)
Lemma Reducer_write_spec (REDUCE : ReductionType) (out : list T)
    (address : Z) (val : T) (aout : option (list Z)) (arg count : Z) :
  0 ≤ address < Z.of_nat (length out) →
  (arg_store REDUCE count = true →
   ∃ al, aout = Some al ∧ length al = length out) →
  Reducer_write REDUCE out address val aout address arg count
  = Ok (<[Z.to_nat address := written REDUCE val count]> out,
        if arg_store REDUCE count
        then (λ al, <[Z.to_nat address := arg]> al) <$> aout
        else aout).
Proof.
  intros Haddr Harg. unfold Reducer_write, written, arg_store in *.
  destruct REDUCE; try (rewrite write_Ok; [done | lia]).
  all: destruct (0 <? count); try (rewrite write_Ok; [done | lia]).
  all: destruct (Harg eq_refl) as (al & -> & Hal).
  all: rewrite write_Ok; [| lia]; simpl.
  all: rewrite write_Ok; [done | lia].
Qed.

(** The loop that writes a row out: the [K] slots of the row receive the
    written values (and, for Min/Max on a non-empty row, the indices);
    every other slot keeps its contents. *)
Lemma spmm_write_spec (REDUCE : ReductionType) (K off count : Z)
    (vals : list T) (args : list Z) (out : list T) (aout : option (list Z)) :
  0 ≤ K → length vals = Z.to_nat K → length args = Z.to_nat K →
  0 ≤ off → off + K ≤ Z.of_nat (length out) →
  (arg_store REDUCE count = true →
   ∃ al, aout = Some al ∧ length al = length out) →
  ∃ out' aout',
    for_loop 0 K (λ k (oa : list T * option (list Z)),
      val ← read vals k;
      arg ← read args k;
      Reducer_write REDUCE oa.1 (off + k) val oa.2 (off + k) arg count)
      (out, aout) = Ok (out', aout') ∧
    length out' = length out ∧
    (∀ (k : nat) v, vals !! k = Some v →
       out' !! (Z.to_nat off + k)%nat = Some (written REDUCE v count)) ∧
    (∀ i : nat, ¬ (off ≤ Z.of_nat i < off + K) → out' !! i = out !! i) ∧
    (if arg_store REDUCE count then
       ∃ al al', aout = Some al ∧ aout' = Some al' ∧
         length al' = length al ∧
         (∀ (k : nat) a, args !! k = Some a →
            al' !! (Z.to_nat off + k)%nat = Some a) ∧
         (∀ i : nat, ¬ (off ≤ Z.of_nat i < off + K) → al' !! i = al !! i)
     else aout' = aout).
Proof.
  intros HK Hlv Hla Hoff Hlen Harg.
  destruct (for_loop_inv
    (λ j (oa : list T * option (list Z)),
       length oa.1 = length out ∧
       (∀ (k : nat) v, Z.of_nat k < j → vals !! k = Some v →
          oa.1 !! (Z.to_nat off + k)%nat = Some (written REDUCE v count)) ∧
       (∀ i : nat, ¬ (off ≤ Z.of_nat i < off + j) → oa.1 !! i = out !! i) ∧
       (if arg_store REDUCE count then
          ∃ al al', aout = Some al ∧ oa.2 = Some al' ∧
            length al' = length al ∧
            (∀ (k : nat) a, Z.of_nat k < j → args !! k = Some a →
               al' !! (Z.to_nat off + k)%nat = Some a) ∧
            (∀ i : nat, ¬ (off ≤ Z.of_nat i < off + j) → al' !! i = al !! i)
        else oa.2 = aout))
    (λ k (oa : list T * option (list Z)),
      val ← read vals k;
      arg ← read args k;
      Reducer_write REDUCE oa.1 (off + k) val oa.2 (off + k) arg count)
    0 K (out, aout)) as ([o a] & Hr & Hl & Hv & Hu & Ha); [lia | | | ].
  - simpl. split; [done |]. split; [intros; lia |]. split; [done |].
    destruct (arg_store REDUCE count) eqn:Hst; [| done].
    destruct (Harg eq_refl) as (al & -> & Hal).
    exists al, al. repeat split; try done. intros; lia.
  - intros k [o a] Hk (Hl & Hv & Hu & Ha). simpl in *.
    destruct (read_in_range vals k) as (v0 & -> & Hv0); [lia |].
    destruct (read_in_range args k) as (a0 & -> & Ha0); [lia |]. simpl.
    rewrite Reducer_write_spec; [| lia |].
    2:{ intros Hst. rewrite Hst in Ha.
        destruct Ha as (al & al' & -> & -> & Hal' & _).
        destruct (Harg Hst) as (al0 & Heq & Hal0). injection Heq as <-.
        exists al'. split; [done | lia]. }
    eexists. split; [done |]. simpl.
    rewrite length_insert. split; [done |].
    replace (Z.to_nat (off + k)) with (Z.to_nat off + Z.to_nat k)%nat by lia.
    split; [| split].
    + intros j v Hj Hvj. destruct (decide (j = Z.to_nat k)) as [-> | Hne].
      * rewrite Hv0 in Hvj. injection Hvj as <-.
        apply list_lookup_insert_eq. lia.
      * rewrite list_lookup_insert_ne; [| lia]. apply Hv; [lia | done].
    + intros i Hi. rewrite list_lookup_insert_ne; [| lia]. apply Hu. lia.
    + destruct (arg_store REDUCE count) eqn:Hst; [| done].
      destruct Ha as (al & al' & -> & -> & Hal' & Hdone & Hrest).
      exists al, (<[(Z.to_nat off + Z.to_nat k)%nat := a0]> al').
      split; [done |]. split; [done |].
      rewrite length_insert. split; [done |]. split.
      * intros j a' Hj Haj. destruct (decide (j = Z.to_nat k)) as [-> | Hne].
        -- rewrite Ha0 in Haj. injection Haj as <-.
           apply list_lookup_insert_eq.
           destruct (Harg eq_refl) as (al0 & Heq & Hal0). injection Heq as <-.
           lia.
        -- rewrite list_lookup_insert_ne; [| lia]. apply Hdone; [lia | done].
      * intros i Hi. rewrite list_lookup_insert_ne; [| lia]. apply Hrest. lia.
  - exists o, a. simpl in *. split; [done |]. split; [done |].
    split.
    { intros k v Hv'. apply Hv; [| done]. apply lookup_lt_Some in Hv'. lia. }
    split; [done |].
    destruct (arg_store REDUCE count); [| done].
    destruct Ha as (al & al' & -> & -> & Hal' & Hdone & Hrest).
    exists al, al'. repeat split; try done.
    intros k a' Ha'. apply Hdone; [| done]. apply lookup_lt_Some in Ha'. lia.
Qed.

(** ** One output row *)

(** The accumulated value does not depend on the index that is carried
    along with it. *)
Lemma reduce_row_fst_indep (REDUCE : ReductionType) (f : Z → T)
    (es : list Z) (st st' : T * Z) :
  st.1 = st'.1 → (reduce_row REDUCE f es st).1 = (reduce_row REDUCE f es st').1.
Proof.
  revert st st'. induction es as [| e es IH]; intros st st' Heq; [done |].
  apply IH. unfold Reducer_update. rewrite Heq.
  destruct REDUCE; simpl; try done.
  - by destruct (s_lt (f e) st'.1).
  - by destruct (s_lt st'.1 (f e)).
Qed.

(** The [K] slots of row [(b, m)] lie inside the output. *)
Lemma row_slot_bounds (B M K b m : Z) :
  0 ≤ b < B → 0 ≤ m < M → 0 ≤ K →
  0 ≤ (b * M + m) * K ∧ (b * M + m) * K + K ≤ B * M * K.
Proof.
  intros Hb Hm HK.
  assert (0 ≤ b * M + m ∧ b * M + m + 1 ≤ B * M) by nia.
  nia.
Qed.

Lemma spmm_row_spec (REDUCE : ReductionType)
    (rowptr_data col_data : list Z) (value_data : option (list T))
    (mat_data : list T) (B M N K b m : Z)
    (vals : list T) (args : list Z) (out : list T) (aout : option (list Z)) :
  csr_ok rowptr_data col_data M N →
  value_ok col_data value_data →
  dims_ok B M N K mat_data out →
  0 ≤ b < B → 0 ≤ m < M →
  length vals = Z.to_nat K → length args = Z.to_nat K →
  (arg_store REDUCE (row_degree rowptr_data m) = true →
   ∃ al, aout = Some al ∧ length al = length out) →
  let off := (b * M + m) * K in
  let f := contribution col_data value_data mat_data N K b in
  ∃ vals' args' out' aout',
    spmm_row REDUCE rowptr_data col_data value_data mat_data M N K b m
             (vals, args, out, aout) = Ok (vals', args', out', aout') ∧
    length vals' = Z.to_nat K ∧ length args' = Z.to_nat K ∧
    length out' = length out ∧
    (∀ k, 0 ≤ k < K →
       out' !! Z.to_nat (off + k)
       = Some (row_value REDUCE rowptr_data col_data value_data mat_data
                         N K b m k)) ∧
    (∀ i : nat, ¬ (off ≤ Z.of_nat i < off + K) → out' !! i = out !! i) ∧
    (if arg_store REDUCE (row_degree rowptr_data m) then
       ∃ al al', aout = Some al ∧ aout' = Some al' ∧
         length al' = length al ∧
         (∀ k, 0 ≤ k < K → ∃ a,
            al' !! Z.to_nat (off + k)
            = Some (reduce_row REDUCE (f k) (row_entries rowptr_data m)
                               (Reducer_init REDUCE, a)).2) ∧
         (∀ i : nat, ¬ (off ≤ Z.of_nat i < off + K) → al' !! i = al !! i)
     else aout' = aout).
Proof.
  intros (Hrl & Hrp & Hcol & HE) Hval (HB & HM & HN & HK & Hml & Hmi & Hol & Hoi)
         Hb Hm Hlv Hla Harg off f.
  destruct (Hrp m Hm) as [Hmono Hend].
  unfold spmm_row.
  rewrite (read_Ok rowptr_data m (atZ rowptr_data m)); [| lia |].
  2:{ apply atZ_lookup. lia. }
  simpl.
  rewrite (read_Ok rowptr_data (m + 1) (atZ rowptr_data (m + 1))); [| lia |].
  2:{ apply atZ_lookup. lia. }
  simpl.
  assert (Hdeg : row_degree rowptr_data m
                 = atZ rowptr_data (m + 1) - atZ rowptr_data m) by done.
  unfold row_value, row_entries. rewrite Hdeg in *. clear Hdeg.
  generalize dependent (atZ rowptr_data (m + 1)). intros re.
  generalize dependent (atZ rowptr_data m). intros rs ? ? ?.
  rewrite init_vals_spec; [| done | done]. simpl.
  assert (Hbb : 0 ≤ b * N * K ∧ b * N * K ≤ B * N * K ∧
                (b + 1) * N * K ≤ B * N * K) by nia.
  rewrite (to_int_small (b * N * K)); [| unfold INT_MAX in *; lia].
  rewrite (to_int_small rs); [| unfold INT_MAX in *; lia].
  destruct (spmm_entries_spec REDUCE col_data value_data mat_data N K b rs re
              (replicate (Z.to_nat K) (Reducer_init REDUCE)) args)
    as (vs & as_ & -> & Hl1 & Hl2 & Hacc); try done; try lia.
  { by rewrite length_replicate. }
  { intros e He. apply Hcol. lia. }
  { intros vd Hvd. rewrite (Hval vd Hvd). lia. }
  simpl.
  assert (Hoo : 0 ≤ off ∧ off + K ≤ B * M * K)
    by (subst off; apply row_slot_bounds; lia).
  replace (b * M * K + m * K) with off by (subst off; lia).
  clearbody off.
  rewrite (to_int_small off); [| unfold INT_MAX in *; lia].
  rewrite (to_int_small (re - rs)); [| unfold INT_MAX in *; lia].
  destruct (spmm_write_spec REDUCE K off (re - rs) vs as_ out aout)
    as (out' & aout' & -> & Hlo & Hw & Hu & Ha); try done; try lia.
  simpl. exists vs, as_, out', aout'.
  split; [done |]. split; [done |]. split; [done |]. split; [done |].
  assert (Hinit : ∀ k, 0 ≤ k < K → ∃ a,
            args !! Z.to_nat k = Some a ∧
            vs !! Z.to_nat k
            = Some (reduce_row REDUCE (f k) (seqZ rs (re - rs))
                               (Reducer_init REDUCE, a)).1 ∧
            as_ !! Z.to_nat k
            = Some (reduce_row REDUCE (f k) (seqZ rs (re - rs))
                               (Reducer_init REDUCE, a)).2).
  { intros k Hk.
    destruct (lookup_lt_is_Some_2 args (Z.to_nat k)) as [a Ha0]; [lia |].
    exists a. split; [done |].
    destruct (Hacc (Z.to_nat k) (Reducer_init REDUCE) a) as [Hv1 Ha1];
      [apply lookup_replicate_2; lia | done |].
    rewrite Z2Nat.id in Hv1, Ha1; [| lia | lia]. done. }
  split.
  { intros k Hk. destruct (Hinit k Hk) as (a & _ & Hv1 & _).
    replace (Z.to_nat (off + k)) with (Z.to_nat off + Z.to_nat k)%nat by lia.
    rewrite (Hw _ _ Hv1). f_equal. f_equal. by apply reduce_row_fst_indep. }
  split; [done |].
  destruct (arg_store REDUCE (re - rs)); [| done].
  destruct Ha as (al & al' & -> & -> & Hal & Hst & Hrest).
  exists al, al'. repeat split; try done.
  intros k Hk. destruct (Hinit k Hk) as (a & _ & _ & Ha1).
  exists a.
  replace (Z.to_nat (off + k)) with (Z.to_nat off + Z.to_nat k)%nat by lia.
  by apply Hst.
Qed.

(** ** The whole kernel *)

Lemma flat_row_inj (M b m b' m' : Z) :
  0 ≤ m < M → 0 ≤ m' < M → b * M + m = b' * M + m' → b = b' ∧ m = m'.
Proof.
  intros Hm Hm' Heq.
  assert (b = b') by nia. subst. lia.
Qed.

Lemma rows_done_step (REDUCE : ReductionType)
    (rowptr_data col_data : list Z) (value_data : option (list T))
    (mat_data : list T) (B M N K : Z) (out : list T) (aout : option (list Z))
    (b m : Z) (st : kstate) :
  csr_ok rowptr_data col_data M N →
  value_ok col_data value_data →
  dims_ok B M N K mat_data out →
  (is_minmax REDUCE = true → ∃ al, aout = Some al ∧ length al = length out) →
  0 ≤ b < B → 0 ≤ m < M →
  rows_done REDUCE rowptr_data col_data value_data mat_data B M N K out aout
            (b * M + m) st →
  ∃ st',
    spmm_row REDUCE rowptr_data col_data value_data mat_data M N K b m st
    = Ok st' ∧
    rows_done REDUCE rowptr_data col_data value_data mat_data B M N K out aout
              (b * M + (m + 1)) st'.
Proof.
  intros Hcsr Hval Hdims Haout Hb Hm.
  destruct st as [[[vs as_] o] a]. unfold rows_done. simpl.
  intros (Hlv & Hla & Hlo & Hout & Harg).
  assert (Hdims' : dims_ok B M N K mat_data o).
  { unfold dims_ok in *. rewrite Hlo. done. }
  assert (HK : 0 ≤ K) by (unfold dims_ok in Hdims; lia).
  destruct (spmm_row_spec REDUCE rowptr_data col_data value_data mat_data
              B M N K b m vs as_ o a Hcsr Hval Hdims' Hb Hm Hlv Hla)
    as (vs' & as' & o' & a' & Hrow & Hlv' & Hla' & Hlo' & Hnew & Hold & Harg').
  { unfold arg_store. intros Hst. apply andb_prop in Hst as [Hmm _].
    rewrite Hmm in Harg.
    destruct Harg as (al & al' & -> & -> & Hal & _).
    destruct (Haout Hmm) as (al0 & Heq & Hal0). injection Heq as <-.
    exists al'. split; [done | lia]. }
  exists (vs', as', o', a'). split; [done |]. simpl.
  split; [done |]. split; [done |]. split; [lia |].
  assert (Hslot : ∀ b' m' k, 0 ≤ b' < B → 0 ≤ m' < M → 0 ≤ k < K →
            b' * M + m' < b * M + m →
            ¬ ((b * M + m) * K
               ≤ Z.of_nat (Z.to_nat ((b' * M + m') * K + k))
               < (b * M + m) * K + K)).
  { intros b' m' k Hb' Hm' Hk Hlt. rewrite Z2Nat.id; [nia |].
    assert (0 ≤ b' * M + m') by nia. nia. }
  split.
  { intros b' m' k Hb' Hm' Hk Hlt.
    destruct (decide (b' * M + m' = b * M + m)) as [Heq | Hne].
    - destruct (flat_row_inj M b' m' b m) as [-> ->]; [lia | lia | done |].
      by apply Hnew.
    - rewrite Hold; [| apply Hslot; [done | done | done | lia]].
      apply Hout; [done | done | done | lia]. }
  unfold arg_store in Harg'.
  destruct (is_minmax REDUCE) eqn:Hmm; simpl in Harg'; [| congruence].
  destruct Harg as (al & al' & -> & -> & Hal & Hdone & Hrest).
  destruct (0 <? row_degree rowptr_data m) eqn:Hdeg.
  - destruct Harg' as (al1 & al2 & Heq & -> & Hal2 & Hst & Hkeep).
    injection Heq as <-.
    exists al, al2. split; [done |]. split; [done |]. split; [lia |]. split.
    + intros b' m' k Hb' Hm' Hk Hlt.
      destruct (decide (b' * M + m' = b * M + m)) as [Heq | Hne].
      * destruct (flat_row_inj M b' m' b m) as [-> ->]; [lia | lia | done |].
        rewrite Hdeg. by apply Hst.
      * rewrite Hkeep; [| apply Hslot; [done | done | done | lia]].
        apply Hdone; [done | done | done | lia].
    + intros i Hi. rewrite Hkeep; [| nia]. apply Hrest. nia.
  - subst a'. exists al, al'. split; [done |]. split; [done |].
    split; [done |]. split.
    + intros b' m' k Hb' Hm' Hk Hlt.
      destruct (decide (b' * M + m' = b * M + m)) as [Heq | Hne].
      * destruct (flat_row_inj M b' m' b m) as [-> ->]; [lia | lia | done |].
        rewrite Hdeg. apply Hrest.
        rewrite Z2Nat.id; [nia |]. assert (0 ≤ b * M + m) by nia. nia.
      * apply Hdone; [done | done | done | lia].
    + intros i Hi. apply Hrest. nia.
Qed.

(** The kernel returns, and every row of every batch has been written. *)
Lemma spmm_kernel_spec (REDUCE : ReductionType)
    (rowptr_data col_data : list Z) (value_data : option (list T))
    (mat_data : list T) (B M N K : Z)
    (vals : list T) (args : list Z) (out : list T) (aout : option (list Z)) :
  csr_ok rowptr_data col_data M N →
  value_ok col_data value_data →
  dims_ok B M N K mat_data out →
  (is_minmax REDUCE = true → ∃ al, aout = Some al ∧ length al = length out) →
  length vals = Z.to_nat K → length args = Z.to_nat K →
  ∃ st',
    spmm_kernel REDUCE rowptr_data col_data value_data mat_data B M N K
                (vals, args, out, aout) = Ok st' ∧
    rows_done REDUCE rowptr_data col_data value_data mat_data B M N K out aout
              (B * M) st'.
Proof.
  intros Hcsr Hval Hdims Haout Hlv Hla.
  assert (HB : 0 ≤ B ∧ 0 ≤ M) by (unfold dims_ok in Hdims; lia).
  unfold spmm_kernel.
  apply (for_loop_inv
    (λ b st, rows_done REDUCE rowptr_data col_data value_data mat_data
                       B M N K out aout (b * M) st)); [lia | |].
  - unfold rows_done. simpl. split; [done |]. split; [done |].
    split; [done |]. split; [intros; nia |].
    destruct (is_minmax REDUCE) eqn:Hmm; [| done].
    destruct (Haout eq_refl) as (al & -> & Hal).
    exists al, al. repeat split; try done. intros; nia.
  - intros b st Hb Hinv.
    destruct (for_loop_inv
      (λ m st, rows_done REDUCE rowptr_data col_data value_data mat_data
                         B M N K out aout (b * M + m) st)
      (λ m st, spmm_row REDUCE rowptr_data col_data value_data mat_data
                        M N K b m st) 0 M st) as (st' & Hr & Hst'); [lia | | |].
    + by replace (b * M + 0) with (b * M) by lia.
    + intros m st0 Hm Hst0. by apply rows_done_step.
    + exists st'. split; [done |].
      by replace ((b + 1) * M) with (b * M + M) by lia.
Qed.

End Forward.

(** ** The operator [spmm] *)

(** What a well-formed argument list provides. *)
Lemma spmm_wf_facts {A} (rowptr col : Tensor Z) (value_opt : option (Tensor A))
    (mat : Tensor A) :
  spmm_wf rowptr col value_opt mat = true →
  ∃ lead N K,
    sizes mat = lead ++ [N; K] ∧
    cols_N mat = N ∧ feat_K mat = K ∧ batch_B mat = prod_sizes lead ∧
    0 < N ∧ 0 < K ∧ 0 ≤ prod_sizes lead ∧
    forallb (Z.leb 0) lead = true ∧
    is_cuda rowptr = false ∧ is_cuda col = false ∧ is_cuda mat = false ∧
    opt_check CHECK_CPU value_opt = Ok () ∧
    opt_check (λ v, AT_ASSERTM (dim v =? 1)) value_opt = Ok () ∧
    dim rowptr = 1 ∧ dim col = 1 ∧ 0 ≤ rows_M rowptr ∧
    numel col = Z.of_nat (length (data col)) ∧
    csr_ok (data rowptr) (data col) (rows_M rowptr) N ∧
    value_ok (data col) (data <$> value_opt) ∧
    Z.of_nat (length (data mat)) = prod_sizes lead * N * K ∧
    prod_sizes lead * N * K ≤ INT_MAX ∧
    prod_sizes lead * rows_M rowptr * K ≤ INT_MAX.
Proof.
  unfold spmm_wf, on_cpu. intros Hwf.
  apply andb_prop in Hwf as [Hwf Hcolr].
  apply andb_prop in Hwf as [Hwf Hrpr].
  apply andb_prop in Hwf as [Hwf Hsorted].
  apply andb_prop in Hwf as [Hwf HEi].
  apply andb_prop in Hwf as [Hwf HOi].
  apply andb_prop in Hwf as [Hwf HMi].
  apply andb_prop in Hwf as [Hwf HKpos].
  apply andb_prop in Hwf as [Hwf HNpos].
  apply andb_prop in Hwf as [Hwf Hvnum].
  apply andb_prop in Hwf as [Hwf Hrn1].
  apply andb_prop in Hwf as [Hwf Htm].
  apply andb_prop in Hwf as [Hwf Htv].
  apply andb_prop in Hwf as [Hwf Htc].
  apply andb_prop in Hwf as [Hwf Htr].
  apply andb_prop in Hwf as [Hwf Hdm].
  apply andb_prop in Hwf as [Hwf Hdv].
  apply andb_prop in Hwf as [Hwf Hdc].
  apply andb_prop in Hwf as [Hwf Hdr].
  apply andb_prop in Hwf as [Hwf Hcm].
  apply andb_prop in Hwf as [Hwf Hcv].
  apply andb_prop in Hwf as [Hwf Hcc].
  destruct (sizes_split (sizes mat)) as (lead & N & K & Hs);
    [unfold dim in *; lia |].
  destruct (size_last mat lead N K Hs) as [HsK HsN].
  assert (HN : cols_N mat = N) by (unfold cols_N, size_or0; by rewrite HsN).
  assert (HK : feat_K mat = K) by (unfold feat_K, size_or0; by rewrite HsK).
  assert (Hnm : numel mat = prod_sizes lead * (N * K)).
  { unfold numel. rewrite Hs, prod_sizes_app. unfold prod_sizes. simpl. lia. }
  assert (HB : batch_B mat = prod_sizes lead).
  { unfold batch_B. rewrite HN, HK, Hnm. apply Z.quot_mul. lia. }
  rewrite HN, HK, HB in *.
  destruct (rank1_numel rowptr) as (Hrs & Hrl & Hrn); [lia | done |].
  destruct (rank1_numel col) as (Hcs & Hcl & Hcn); [lia | done |].
  assert (Hmat : forallb (Z.leb 0) (sizes mat) = true ∧
                 Z.of_nat (length (data mat)) = numel mat).
  { unfold tensor_ok in Htm. apply andb_prop in Htm as [? ?].
    split; [done | lia]. }
  destruct Hmat as [Hmpos Hmlen].
  rewrite Hs, forallb_app in Hmpos. apply andb_prop in Hmpos as [Hlead _].
  assert (Hpl : 0 ≤ prod_sizes lead).
  { clear - Hlead. induction lead as [| x l IH]; unfold prod_sizes in *;
      simpl in *; [lia |].
    apply andb_prop in Hlead as [Hx Hl]. specialize (IH Hl). nia. }
  exists lead, N, K.
  repeat match goal with |- _ ∧ _ => split end; try done; try lia.
  - by destruct (is_cuda rowptr).
  - by destruct (is_cuda col).
  - by destruct (is_cuda mat).
  - destruct value_opt as [v |]; simpl in *; [| done].
    unfold CHECK_CPU. by destruct (is_cuda v).
  - destruct value_opt as [v |]; simpl in *; [| done].
    unfold AT_ASSERTM. by destruct (dim v =? 1).
  - unfold rows_M. lia.
  - unfold csr_ok, rows_M. split; [lia |]. split; [| split; [| lia]].
    + intros m Hm.
      assert (Hf0 := forallb_at _ (data rowptr) m Hrpr).
      assert (Hf1 := forallb_at _ (data rowptr) (m + 1) Hrpr).
      assert (Hnd := nondecreasing_at (data rowptr) m Hsorted).
      lia.
    + intros e He. assert (Hf := forallb_at _ (data col) e Hcolr). lia.
  - unfold value_ok. intros vd Hvd.
    destruct value_opt as [v |]; simpl in *; [| done].
    injection Hvd as <-. unfold tensor_ok in Htv.
    apply andb_prop in Htv as [? ?]. lia.
Qed.


Section ForwardOperator.
Context {T : Type} `{Scalar T}.

(** On well-formed arguments and a known reduction token, [spmm] returns
    an output of shape [(B, M, K)] whose element [(b, m, k)] is the
    reduction of row [m] in batch [b]; for Min and Max it also returns
    the index tensor, which holds the reported entry on non-empty rows
    and the fill value [E = numel col] on empty ones. *)
Lemma spmm_spec (garbage : nat → T) (rowptr col : Tensor Z)
    (value_opt : option (Tensor T)) (mat : Tensor T) (reduce : string)
    (REDUCE : ReductionType) :
  reduce2REDUCE !! reduce = Some REDUCE →
  spmm_wf rowptr col value_opt mat = true →
  let M := rows_M rowptr in
  let N := cols_N mat in
  let K := feat_K mat in
  let B := batch_B mat in
  ∃ out arg_out,
    spmm garbage rowptr col value_opt mat reduce = Ok (out, arg_out) ∧
    Z.of_nat (length (data out)) = B * M * K ∧
    (∀ b m k, 0 ≤ b < B → 0 ≤ m < M → 0 ≤ k < K →
       data out !! Z.to_nat (b * M * K + m * K + k)
       = Some (row_value REDUCE (data rowptr) (data col) (data <$> value_opt)
                 (data mat) N K b m k)) ∧
    (if is_minmax REDUCE then
       ∃ ao, arg_out = Some ao ∧ sizes ao = sizes out ∧
         length (data ao) = length (data out) ∧
         ∀ b m k, 0 ≤ b < B → 0 ≤ m < M → 0 ≤ k < K →
           if 0 <? row_degree (data rowptr) m then
             ∃ a, data ao !! Z.to_nat (b * M * K + m * K + k)
                  = Some (reduce_row REDUCE
                            (contribution (data col) (data <$> value_opt)
                               (data mat) N K b k)
                            (row_entries (data rowptr) m)
                            (Reducer_init REDUCE, a)).2
           else data ao !! Z.to_nat (b * M * K + m * K + k)
                = Some (numel col)
     else arg_out = None).
Proof.
  intros Hred Hwf M N K B.
  destruct (spmm_wf_facts rowptr col value_opt mat Hwf)
    as (lead & N' & K' & Hs & HN & HK & HB & HNpos & HKpos & Hpl & Hlead &
        Hcr & Hcc & Hcm & Hcv & Hdv & Hdr & Hdc & HM & HE & Hcsr & Hval &
        Hml & Hmi & Hoi).
  subst M N K B. rewrite HN, HK, HB. clear HN HK HB.
  remember (rows_M rowptr) as M eqn:HMdef.
  destruct (size_last mat lead N' K' Hs) as [HsK HsN].
  unfold spmm. rewrite Hcv, Hdv. unfold CHECK_CPU. rewrite Hcr, Hcc, Hcm. simpl.
  unfold AT_ASSERTM. rewrite Hdr, Hdc. simpl.
  assert (Hdm : (2 <=? dim mat) = true).
  { unfold dim. rewrite Hs, length_app. simpl. apply Z.leb_le. lia. }
  rewrite Hdm. simpl.
  unfold dim. rewrite Hs, write_rows. simpl.
  fold (rows_M rowptr). rewrite <- HMdef.
  assert (Hshape : forallb (Z.leb 0) (lead ++ [M; K']) = true).
  { rewrite forallb_app, Hlead. simpl.
    destruct (Z.leb_spec 0 M); [| lia]. destruct (Z.leb_spec 0 K'); [| lia].
    done. }
  unfold torch_empty. rewrite Hshape. simpl.
  unfold reduce2REDUCE_at. rewrite Hred. simpl.
  rewrite HsN, HsK. simpl.
  assert (Hnm : numel mat = prod_sizes lead * (N' * K')).
  { unfold numel. rewrite Hs, prod_sizes_app. unfold prod_sizes. simpl. lia. }
  unfold div64. destruct (Z.eqb_spec (N' * K') 0) as [Hz | _]; [nia |].
  rewrite Hnm, Z.quot_mul; [| nia]. simpl.
  assert (Hpo : prod_sizes (lead ++ [M; K']) = prod_sizes lead * M * K').
  { rewrite prod_sizes_app. unfold prod_sizes. simpl. lia. }
  rewrite Hpo.
  remember (garbage <$> seq 0 (Z.to_nat (prod_sizes lead * M * K')))
    as out0 eqn:Hout0.
  assert (Hlo : Z.of_nat (length out0) = prod_sizes lead * M * K').
  { subst out0. rewrite length_fmap, length_seq. nia. }
  remember (data <$>
            match REDUCE with
            | MIN | MAX =>
                Some (full_like (mkTensor false (lead ++ [M; K']) out0)
                                (numel col))
            | _ => None
            end) as aout0 eqn:Haout0.
  destruct (spmm_kernel_spec REDUCE (data rowptr) (data col)
              (data <$> value_opt) (data mat) (prod_sizes lead) M N' K'
              (replicate (Z.to_nat K') s_zero) (replicate (Z.to_nat K') 0)
              out0 aout0) as ([[[vs as_] o] a] & Hk & Hdone); try done.
  { unfold dims_ok. repeat split; try lia. }
  { subst aout0. intros Hmm. eexists. split.
    - destruct REDUCE; try done.
    - simpl. by rewrite length_replicate. }
  { by rewrite length_replicate. }
  { by rewrite length_replicate. }
  rewrite Hk. simpl.
  destruct Hdone as (_ & _ & Hlo' & Hout & Harg). simpl in *.
  eexists _, _. split; [done |]. simpl.
  split; [lia |]. split.
  { intros b m k Hb Hm Hk'.
    replace (b * M * K' + m * K' + k) with ((b * M + m) * K' + k) by lia.
    apply Hout; try done. nia. }
  destruct (is_minmax REDUCE) eqn:Hmm; [| by rewrite Harg; subst aout0;
                                          destruct REDUCE].
  destruct Harg as (al & al' & Hal & -> & Hlen & Hcells & _).
  simpl. eexists. split; [done |]. simpl. split; [done |].
  assert (Hal0 : al = replicate (length out0) (numel col)).
  { subst aout0. destruct REDUCE; try done; simpl in Hal; by injection Hal. }
  split.
  { rewrite Hlen, Hal0, length_replicate. lia. }
  intros b m k Hb Hm Hk'.
  replace (b * M * K' + m * K' + k) with ((b * M + m) * K' + k) by lia.
  assert (Hc := Hcells b m k Hb Hm Hk').
  destruct (0 <? row_degree (data rowptr) m); [apply Hc; nia |].
  rewrite Hc; [| nia]. rewrite Hal0. apply lookup_replicate_2.
  destruct (row_slot_bounds (prod_sizes lead) M K' b m); try lia.
Qed.

End ForwardOperator.


Section SumMean.
Context {T : Type} `{Scalar T}.

(** Under Sum and Mean the accumulator is the running sum. *)
Lemma reduce_row_sum (REDUCE : ReductionType) (f : Z → T) (es : list Z)
    (v : T) (a : Z) :
  is_minmax REDUCE = false →
  (reduce_row REDUCE f es (v, a)).1 = foldl (λ acc e, s_add acc (f e)) v es.
Proof.
  intros Hmm. revert v a. induction es as [| e es IH]; intros v a; [done |].
  simpl. destruct REDUCE; try done; simpl; apply IH.
Qed.

(** C1. With reduction "sum" (or "add") [spmm] returns, and for every
    batch [b], output row [m] and feature [k] the element [out[b, m, k]]
    is the sum, over the entries [e] of row [m] in order, of
    [weight(e) * dense[b, col[e], k]] (the dense element itself when no
    value tensor is given, i.e. weight one); a row of degree 0 yields
    zero at every feature. *)
Theorem spmm_sum_correct (garbage : nat → T) (rowptr col : Tensor Z)
    (value_opt : option (Tensor T)) (mat : Tensor T) (reduce : string) :
  reduce = "sum" ∨ reduce = "add" →
  spmm_wf rowptr col value_opt mat = true →
  let M := rows_M rowptr in
  let N := cols_N mat in
  let K := feat_K mat in
  let B := batch_B mat in
  ∃ out,
    spmm garbage rowptr col value_opt mat reduce = Ok (out, None) ∧
    ∀ b m k, 0 ≤ b < B → 0 ≤ m < M → 0 ≤ k < K →
      data out !! Z.to_nat (b * M * K + m * K + k)
      = Some (sum_over (contribution (data col) (data <$> value_opt)
                          (data mat) N K b k)
                       (row_entries (data rowptr) m)) ∧
      (row_degree (data rowptr) m = 0 →
       data out !! Z.to_nat (b * M * K + m * K + k) = Some s_zero).
Proof.
  intros Hred Hwf M N K B. subst M N K B.
  assert (Hlook : reduce2REDUCE !! reduce = Some SUM)
    by (destruct Hred as [-> | ->]; reflexivity).
  destruct (spmm_spec garbage rowptr col value_opt mat reduce SUM Hlook Hwf)
    as (out & arg_out & Hrun & _ & Hval & Harg).
  simpl in Harg. subst arg_out. exists out. split; [done |].
  intros b m k Hb Hm Hk.
  assert (Hv := Hval b m k Hb Hm Hk).
  unfold row_value, written in Hv. rewrite reduce_row_sum in Hv; [| done].
  split; [done |].
  intros Hdeg. rewrite Hv. unfold row_entries. by rewrite Hdeg.
Qed.

End SumMean.

(** C1, on the 2 x 2 example: [out = [[19], [15]]]. *)
Lemma spmm_sum_correct_witness :
  ∃ out,
    @spmm Z (IntScalar I64) ex_garbage ex_rowptr ex_col (Some ex_value)
          ex_mat "sum" = Ok (out, None) ∧
    ∀ b m k, 0 ≤ b < 1 → 0 ≤ m < 2 → 0 ≤ k < 1 →
      data out !! Z.to_nat (b * 2 * 1 + m * 1 + k)
      = Some (@sum_over Z (IntScalar I64)
                (@contribution Z (IntScalar I64) (data ex_col)
                   (Some (data ex_value)) (data ex_mat) 2 1 b k)
                (row_entries (data ex_rowptr) m)) ∧
      (row_degree (data ex_rowptr) m = 0 →
       data out !! Z.to_nat (b * 2 * 1 + m * 1 + k) = Some 0).
Proof.
  apply (@spmm_sum_correct Z (IntScalar I64) ex_garbage ex_rowptr ex_col
           (Some ex_value) ex_mat "sum").
  - left. reflexivity.
  - vm_compute. reflexivity.
Defined.


(** The spec's first scenario, evaluated. *)
Example spmm_sum_example :
  @spmm Z (IntScalar I64) ex_garbage ex_rowptr ex_col (Some ex_value)
        ex_mat "sum"
  = Ok (mkTensor false [1; 2; 1] [19; 15], None).
Proof. vm_compute. reflexivity. Qed.

(** On the integral element types the implicit weight is indeed a
    multiplication by one. *)
Lemma int_wrap_id (k : IntKind) (x : Z) :
  in_range k x = true → int_wrap k x = x.
Proof.
  unfold in_range, int_wrap. intros Hr. apply andb_prop in Hr as [Hlo Hhi].
  rewrite Z.mod_small; [lia |]. destruct k; simpl in *; lia.
Qed.

Lemma IntScalar_mul_one (k : IntKind) (x : Z) :
  in_range k x = true →
  @s_mul Z (IntScalar k) (@s_of_int Z (IntScalar k) 1) x = x.
Proof.
  intros Hr. simpl.
  rewrite (int_wrap_id k 1); [| by destruct k].
  replace (1 * x) with x by lia. by apply int_wrap_id.
Qed.

Lemma int_wrap_range (k : IntKind) (z : Z) : in_range k (int_wrap k z) = true.
Proof.
  unfold in_range, int_wrap.
  assert (Hm : 0 < int_hi k - int_lo k + 1) by (destruct k; simpl; lia).
  assert (Hb := Z.mod_pos_bound (z - int_lo k) _ Hm).
  apply andb_true_intro. split; apply Z.leb_le; lia.
Qed.

Lemma int_wrap_add_l (k : IntKind) (a b : Z) :
  int_wrap k (int_wrap k a + b) = int_wrap k (a + b).
Proof.
  unfold int_wrap. f_equal.
  replace ((a - int_lo k) `mod` (int_hi k - int_lo k + 1) + int_lo k + b
           - int_lo k)
    with ((a - int_lo k) `mod` (int_hi k - int_lo k + 1) + b) by lia.
  rewrite Zplus_mod_idemp_l. f_equal. lia.
Qed.

(** On an integral element type the sum of a row is the mathematical sum
    of its contributions reduced into the type, and the mathematical sum
    itself whenever that fits the type. *)
Lemma sum_over_int (k : IntKind) (f : Z → Z) (es : list Z) :
  @sum_over Z (IntScalar k) f es = int_wrap k (foldl (λ s e, s + f e) 0 es).
Proof.
  unfold sum_over. simpl.
  assert (Hgen : ∀ a a', a = int_wrap k a' →
            foldl (λ acc e, int_wrap k (acc + f e)) a es
            = int_wrap k (foldl (λ s e, s + f e) a' es)).
  { induction es as [| e es IH]; intros a a' Ha; simpl; [done |].
    apply IH. rewrite Ha. apply int_wrap_add_l. }
  apply Hgen. symmetry. apply int_wrap_id. by destruct k.
Qed.

Lemma sum_over_int_exact (k : IntKind) (f : Z → Z) (es : list Z) :
  in_range k (foldl (λ s e, s + f e) 0 es) = true →
  @sum_over Z (IntScalar k) f es = foldl (λ s e, s + f e) 0 es.
Proof. intros Hr. rewrite sum_over_int. by apply int_wrap_id. Qed.

Section Mean.
Context {T : Type} `{Scalar T}.

Lemma written_mean (v : T) (count : Z) :
  written MEAN v count = s_div_int v (Z.max count 1).
Proof.
  unfold written. destruct (Z.ltb_spec 0 count); f_equal; lia.
Qed.

(** C2. With reduction "mean" [spmm] returns, and [out[b, m, k]] is the
    Sum result of the row divided by [max(rowptr[m+1] - rowptr[m], 1)],
    a divisor that is never zero; where dividing zero by one gives zero
    in the element type, a row of degree 0 yields exactly zero. *)
Theorem spmm_mean_correct (garbage : nat → T) (rowptr col : Tensor Z)
    (value_opt : option (Tensor T)) (mat : Tensor T) :
  s_div_int s_zero 1 = s_zero →
  spmm_wf rowptr col value_opt mat = true →
  let M := rows_M rowptr in
  let N := cols_N mat in
  let K := feat_K mat in
  let B := batch_B mat in
  ∃ out,
    spmm garbage rowptr col value_opt mat "mean" = Ok (out, None) ∧
    ∀ b m k, 0 ≤ b < B → 0 ≤ m < M → 0 ≤ k < K →
      1 ≤ Z.max (row_degree (data rowptr) m) 1 ∧
      data out !! Z.to_nat (b * M * K + m * K + k)
      = Some (s_div_int
                (sum_over (contribution (data col) (data <$> value_opt)
                             (data mat) N K b k)
                          (row_entries (data rowptr) m))
                (Z.max (row_degree (data rowptr) m) 1)) ∧
      (row_degree (data rowptr) m = 0 →
       data out !! Z.to_nat (b * M * K + m * K + k) = Some s_zero).
Proof.
  intros Hdiv Hwf M N K B. subst M N K B.
  destruct (spmm_spec garbage rowptr col value_opt mat "mean" MEAN eq_refl Hwf)
    as (out & arg_out & Hrun & _ & Hval & Harg).
  simpl in Harg. subst arg_out. exists out. split; [done |].
  intros b m k Hb Hm Hk.
  assert (Hv := Hval b m k Hb Hm Hk).
  unfold row_value in Hv. rewrite written_mean in Hv.
  rewrite reduce_row_sum in Hv; [| done].
  split; [lia |]. split; [done |].
  intros Hdeg. rewrite Hv. unfold row_entries. rewrite Hdeg. simpl.
  unfold sum_over. simpl. replace (0 `max` 1) with 1 by lia. by rewrite Hdiv.
Qed.

End Mean.

(** C2, on the 2 x 2 example. *)
Lemma spmm_mean_correct_witness :
  ∃ out,
    @spmm Z (IntScalar I64) ex_garbage ex_rowptr ex_col (Some ex_value)
          ex_mat "mean" = Ok (out, None) ∧
    ∀ b m k, 0 ≤ b < 1 → 0 ≤ m < 2 → 0 ≤ k < 1 →
      1 ≤ Z.max (row_degree (data ex_rowptr) m) 1 ∧
      data out !! Z.to_nat (b * 2 * 1 + m * 1 + k)
      = Some (@s_div_int Z (IntScalar I64)
                (@sum_over Z (IntScalar I64)
                   (@contribution Z (IntScalar I64) (data ex_col)
                      (Some (data ex_value)) (data ex_mat) 2 1 b k)
                   (row_entries (data ex_rowptr) m))
                (Z.max (row_degree (data ex_rowptr) m) 1)) ∧
      (row_degree (data ex_rowptr) m = 0 →
       data out !! Z.to_nat (b * 2 * 1 + m * 1 + k) = Some 0).
Proof.
  apply (@spmm_mean_correct Z (IntScalar I64) ex_garbage ex_rowptr ex_col
           (Some ex_value) ex_mat).
  - reflexivity.
  - vm_compute. reflexivity.
Defined.

(** A matrix with an empty middle row under Mean: the empty row yields 0
    and the others the truncated averages. *)
Example spmm_mean_empty_row :
  @spmm Z (IntScalar I64) ex_garbage (tensor1 [0; 2; 2; 3]) ex_col
        (Some ex_value) ex_mat "mean"
  = Ok (mkTensor false [1; 3; 1] [9; 0; 15], None).
Proof. vm_compute. reflexivity. Qed.


(** ** The backward kernel *)

Section Backward.
Context {T : Type} `{Scalar T}.






End Backward.


(** ** The operator [spmm_val_bw] *)

Lemma tensor_ok_length {A} (t : Tensor A) :
  tensor_ok t = true → Z.of_nat (length (data t)) = numel t.
Proof.
  unfold tensor_ok. intros Hok. apply andb_prop in Hok as [_ Hok]. lia.
Qed.

Lemma on_cpu_check {A} (t : Tensor A) :
  on_cpu t = true → CHECK_CPU t = Ok ().
Proof. unfold on_cpu, CHECK_CPU. by destruct (is_cuda t). Qed.

Section BackwardOperator.
Context {T : Type} `{Scalar T}.

(** What a well-formed argument list of the backward operator provides. *)
Lemma bw_wf_facts (REDUCE : ReductionType) (row rowptr col : Tensor Z)
    (mat grad : Tensor T) :
  bw_wf REDUCE row rowptr col mat grad = true →
  (REDUCE = MEAN →
     ∀ b e, 0 ≤ b < batch_B mat → 0 ≤ e < numel row →
       count_exact (data row) (data rowptr) (data col) (data mat) (data grad)
                   (size_M grad) (cols_N mat) (feat_K mat) b e) →
  CHECK_CPU row = Ok () ∧ CHECK_CPU rowptr = Ok () ∧ CHECK_CPU col = Ok () ∧
  CHECK_CPU mat = Ok () ∧ CHECK_CPU grad = Ok () ∧
  size grad (-2) = Ok (size_M grad) ∧ size mat (-2) = Ok (cols_N mat) ∧
  size mat (-1) = Ok (feat_K mat) ∧
  div64 (numel mat) (cols_N mat * feat_K mat) = Ok (batch_B mat) ∧
  Z.of_nat (length (data row)) = numel row ∧
  bw_ok REDUCE (data row) (data rowptr) (data col) (data mat) (data grad)
        (batch_B mat) (size_M grad) (cols_N mat) (feat_K mat).
Proof.
  unfold bw_wf. intros Hwf Hexact.
  apply andb_prop in Hwf as [Hwf Hmean].
  apply andb_prop in Hwf as [Hwf Hcolr].
  apply andb_prop in Hwf as [Hwf Hrowr].
  apply andb_prop in Hwf as [Hwf HE].
  apply andb_prop in Hwf as [Hwf Hgn].
  apply andb_prop in Hwf as [Hwf HKpos].
  apply andb_prop in Hwf as [Hwf HNpos].
  apply andb_prop in Hwf as [Hwf Hdg].
  apply andb_prop in Hwf as [Hwf Hdm].
  apply andb_prop in Hwf as [Hwf Htg].
  apply andb_prop in Hwf as [Hwf Htm].
  apply andb_prop in Hwf as [Hwf Htc].
  apply andb_prop in Hwf as [Hwf Htr].
  apply andb_prop in Hwf as [Hwf Hcg].
  apply andb_prop in Hwf as [Hwf Hcm].
  apply andb_prop in Hwf as [Hwf Hcc].
  apply andb_prop in Hwf as [Hcr Hcp].
  destruct (sizes_split (sizes mat)) as (lead & N & K & Hs);
    [unfold dim in *; lia |].
  destruct (size_last mat lead N K Hs) as [HsK HsN].
  destruct (sizes_split (sizes grad)) as (lead' & M & K' & Hs');
    [unfold dim in *; lia |].
  destruct (size_last grad lead' M K' Hs') as [_ HsM].
  assert (HN : cols_N mat = N) by (unfold cols_N, size_or0; by rewrite HsN).
  assert (HK : feat_K mat = K) by (unfold feat_K, size_or0; by rewrite HsK).
  assert (HM : size_M grad = M) by (unfold size_M, size_or0; by rewrite HsM).
  assert (Hnm : numel mat = prod_sizes lead * (N * K)).
  { unfold numel. rewrite Hs, prod_sizes_app. unfold prod_sizes. simpl. lia. }
  assert (HB : batch_B mat = prod_sizes lead).
  { unfold batch_B. rewrite HN, HK, Hnm. apply Z.quot_mul. lia. }
  assert (Hpos : forallb (Z.leb 0) (sizes mat) = true ∧
                 forallb (Z.leb 0) (sizes grad) = true).
  { unfold tensor_ok in Htm, Htg.
    apply andb_prop in Htm as [? _]. by apply andb_prop in Htg as [? _]. }
  destruct Hpos as [Hmpos Hgpos].
  rewrite Hs, forallb_app in Hmpos. apply andb_prop in Hmpos as [Hlead _].
  rewrite Hs', forallb_app in Hgpos. apply andb_prop in Hgpos as [_ HMK].
  simpl in HMK.
  assert (Hpl : 0 ≤ prod_sizes lead).
  { clear - Hlead. induction lead as [| x l IH]; unfold prod_sizes in *;
      simpl in *; [lia |].
    apply andb_prop in Hlead as [Hx Hl]. specialize (IH Hl). nia. }
  assert (Hrl := tensor_ok_length row Htr).
  assert (Hcl := tensor_ok_length col Htc).
  assert (Hml := tensor_ok_length mat Htm).
  assert (Hgl := tensor_ok_length grad Htg).
  rewrite HN, HK, HM, HB in *.
  repeat match goal with |- _ ∧ _ => split end;
    try (by apply on_cpu_check); try done.
  - unfold div64. destruct (Z.eqb_spec (N * K) 0) as [Hz | _]; [nia |].
    rewrite Hnm, Z.quot_mul; [done | nia].
  - unfold bw_ok.
    do 7 (split; [lia |]). split.
    + intros e He.
      assert (Hfc := forallb_at _ (data col) e Hcolr).
      assert (Hfr := forallb_at _ (data row) e Hrowr). lia.
    + intros ->. apply andb_prop in Hmean as [Hlen Hrange].
      split; [lia |]. split.
      * intros i Hi. assert (Hf := forallb_at _ (data rowptr) i Hrange). lia.
      * intros b e Hb He. apply Hexact; [done | done | lia].
Qed.


End BackwardOperator.



(** The spec's example under Mean and under Sum, evaluated. *)
Example spmm_val_bw_example :
  @spmm_val_bw Z (IntScalar I64) ex_row ex_rowptr ex_col ex_mat ex_grad "mean"
  = Ok (mkTensor false [3] [25; 35; 500]) ∧
  @spmm_val_bw Z (IntScalar I64) ex_row ex_rowptr ex_col ex_mat ex_grad "sum"
  = Ok (mkTensor false [3] [50; 70; 500]).
Proof. split; vm_compute; reflexivity. Qed.

(** C4, at a failing input. With [int8_t] tensors and a row of 255
    entries the arguments are well-formed, every dot product is 1 and
    the count is 255, so [out[e]] should be 1 / 255 = 0; the kernel casts
    the count to the element type before dividing (line 218), divides by
    -1 and returns -1 in every position. *)
Theorem spmm_val_bw_int8_wide_row :
  bw_wf MEAN wide_row wide_rowptr wide_col one_mat one_grad = true ∧
  @spmm_val_bw Z (IntScalar I8) wide_row wide_rowptr wide_col one_mat one_grad
               "mean"
  = Ok (mkTensor false [255] (replicate 255%nat (-1))) ∧
  @bw_value Z (IntScalar I8) MEAN (data wide_row) (data wide_rowptr)
            (data wide_col) (data one_mat) (data one_grad) 1 1 1 1 0 = 0 ∧
  ¬ (∃ out,
       @spmm_val_bw Z (IntScalar I8) wide_row wide_rowptr wide_col one_mat
                    one_grad "mean" = Ok out ∧
       ∀ e, 0 ≤ e < 255 →
         data out !! Z.to_nat e
         = Some (@bw_value Z (IntScalar I8) MEAN (data wide_row)
                   (data wide_rowptr) (data wide_col) (data one_mat)
                   (data one_grad) 1 1 1 1 e)).
Proof.
  assert (Hrun :
    @spmm_val_bw Z (IntScalar I8) wide_row wide_rowptr wide_col one_mat
                 one_grad "mean"
    = Ok (mkTensor false [255] (replicate 255%nat (-1))))
    by (vm_compute; reflexivity).
  split; [vm_compute; reflexivity |]. split; [exact Hrun |].
  split; [vm_compute; reflexivity |].
  intros (out & Hout & Hval). rewrite Hrun in Hout. injection Hout as <-.
  specialize (Hval 0 ltac:(lia)). vm_compute in Hval. discriminate.
Qed.


(** ** Mean on the integral element types *)

Lemma quot_in_range (k : IntKind) (x c : Z) :
  in_range k x = true → 1 ≤ c → in_range k (x ÷ c) = true.
Proof.
  unfold in_range. intros Hx Hc. apply andb_prop in Hx as [Hlo Hhi].
  assert (Hk : int_lo k ≤ 0 ≤ int_hi k) by (destruct k; simpl; lia).
  assert (Hq : ∀ y, 0 ≤ y → 0 ≤ y ÷ c ≤ y).
  { intros y Hy. split; [apply Z.quot_pos; lia |].
    apply Z.quot_le_upper_bound; [lia | nia]. }
  apply andb_true_intro.
  destruct (Z.le_gt_cases 0 x) as [Hpos | Hneg].
  - specialize (Hq x Hpos). split; [apply Z.leb_le | apply Z.leb_le]; lia.
  - specialize (Hq (- x) ltac:(lia)). rewrite Z.quot_opp_l in Hq; [| lia].
    split; [apply Z.leb_le | apply Z.leb_le]; lia.
Qed.

(** Dividing by a count the element type can represent is the truncated
    division by that count. *)
Lemma int_div_count (k : IntKind) (x c : Z) :
  in_range k x = true → 1 ≤ c ≤ int_hi k →
  int_div k x (int_wrap k c) = Some (x ÷ c).
Proof.
  intros Hx Hc.
  assert (Hk : int_lo k ≤ 0) by (destruct k; simpl; lia).
  rewrite (int_wrap_id k c).
  2:{ unfold in_range. apply andb_true_intro.
      split; apply Z.leb_le; lia. }
  unfold int_div.
  destruct (Z.eqb_spec c 0) as [-> | _]; [lia |].
  destruct (Z.eqb_spec c (-1)) as [-> | _]; [lia |].
  rewrite andb_false_r. simpl.
  by rewrite int_wrap_id; [| apply quot_in_range; [done | lia]].
Qed.



(** Mean truncates toward zero. For every integral element type and
    every accumulator [val] of that type: [Reducer::write] under Mean
    stores the quotient of [val] by [max(count, 1)] truncated toward
    zero; the normalisation of [spmm_val_bw] yields the truncated
    quotient of [val] by [max(rowptr[row+1] - rowptr[row], 1)] whenever
    that count is representable in the element type, which it always is
    for [int32_t] and [int64_t]. *)
Theorem mean_division_truncates (k : IntKind) (val : Z) :
  in_range k val = true →
  (∀ (out : list Z) (address : Z) (aout : option (list Z)) (arg count : Z),
     0 ≤ address < Z.of_nat (length out) →
     @Reducer_write Z (IntScalar k) MEAN out address val aout address arg count
     = Ok (<[Z.to_nat address := val ÷ Z.max count 1]> out, aout)) ∧
  (∀ (rowptr_data : list Z) (row : Z),
     0 ≤ row → row + 1 < Z.of_nat (length rowptr_data) →
     (∀ i, 0 ≤ i < Z.of_nat (length rowptr_data) →
           0 ≤ atZ rowptr_data i ≤ INT_MAX) →
     (Z.max (row_degree rowptr_data row) 1 ≤ int_hi k ∨ k = I32 ∨ k = I64) →
     @bw_normalize Z (IntScalar k) MEAN rowptr_data row val
     = Ok (val ÷ Z.max (row_degree rowptr_data row) 1)).
Proof.
  intros Hval. split.
  - intros out address aout arg count Haddr.
    rewrite (@Reducer_write_spec Z (IntScalar k)); [| done | done].
    simpl. f_equal. f_equal. f_equal.
    rewrite int_wrap_id.
    + f_equal. destruct (Z.ltb_spec 0 count); lia.
    + apply quot_in_range; [done |]. destruct (Z.ltb_spec 0 count); lia.
  - intros rowptr_data row Hrow Hlen Hrange Hrep.
    unfold bw_normalize.
    rewrite (read_Ok rowptr_data row (atZ rowptr_data row));
      [| lia | apply atZ_lookup; lia]. simpl.
    rewrite (read_Ok rowptr_data (row + 1) (atZ rowptr_data (row + 1)));
      [| lia | apply atZ_lookup; lia]. simpl.
    assert (H0 := Hrange row). assert (H1 := Hrange (row + 1)).
    rewrite (to_int_small (atZ rowptr_data row));
      [| unfold INT_MAX in *; lia].
    rewrite (to_int_small (atZ rowptr_data (row + 1)));
      [| unfold INT_MAX in *; lia].
    rewrite to_int_small; [| unfold INT_MAX in *; lia].
    unfold row_degree.
    rewrite int_div_count; [done | done |].
    split; [lia |].
    destruct Hrep as [Hrep | [-> | ->]]; unfold row_degree in *;
      unfold INT_MAX in *; simpl; lia.
Qed.

(** At [int8_t]: -7 / 2 is -3, neither -4 nor -3.5. *)
Lemma mean_division_truncates_witness :
  @Reducer_write Z (IntScalar I8) MEAN [0] 0 (-7) None 0 0 2
  = Ok ([-3], None) ∧
  @bw_normalize Z (IntScalar I8) MEAN [0; 2] 0 (-7) = Ok (-3).
Proof.
  destruct (mean_division_truncates I8 (-7) eq_refl) as [Hw Hb].
  split.
  - apply (Hw [0] 0 None 0 2). simpl. lia.
  - apply (Hb [0; 2] 0).
    + lia.
    + simpl. lia.
    + intros i Hi. simpl in Hi.
      assert (Hi' : i = 0 ∨ i = 1) by lia.
      destruct Hi' as [-> | ->]; vm_compute; split; discriminate.
    + left. vm_compute. discriminate.
Defined.

(** C10, at a failing input. In [spmm_val_bw] with [int8_t] elements and
    a row of 255 entries the count is cast to the element type before
    the division (line 218) and 255 becomes -1. The value -128 is
    normalised to -128: that is neither its truncated quotient by the
    count, 0, nor the truncated quotient by the cast divisor, 128, which
    does not fit the type. [Reducer::write] in [spmm] divides the same
    value by the same count to 0. *)
Theorem bw_normalize_int8_wide_row :
  in_range I8 (-128) = true ∧
  @s_of_int Z (IntScalar I8) (Z.max (row_degree [0; 255] 0) 1) = -1 ∧
  @bw_normalize Z (IntScalar I8) MEAN [0; 255] 0 (-128) = Ok (-128) ∧
  (-128) ÷ Z.max (row_degree [0; 255] 0) 1 = 0 ∧
  (-128) ÷ (-1) = 128 ∧
  @Reducer_write Z (IntScalar I8) MEAN [0] 0 (-128) None 0 0
                 (row_degree [0; 255] 0) = Ok ([0], None).
Proof. repeat split; vm_compute; reflexivity. Qed.

(** Any other value shows the first half: 100 is normalised to -100. *)
Example bw_normalize_int8_negates :
  @bw_normalize Z (IntScalar I8) MEAN [0; 255] 0 100 = Ok (-100) ∧
  100 ÷ Z.max (row_degree [0; 255] 0) 1 = 0.
Proof. split; vm_compute; reflexivity. Qed.

(** With [uint8_t] elements and a row of 256 entries the cast count is 0
    and the division is undefined. *)
Example bw_normalize_uint8_zero_divisor :
  @bw_normalize Z (IntScalar U8) MEAN [0; 256] 0 100 = Undef.
Proof. vm_compute. reflexivity. Qed.


(** ** Reduction tokens *)

Lemma reduce2REDUCE_lookup (reduce : string) :
  reduce2REDUCE !! reduce =
  if decide ("sum" = reduce) then Some SUM
  else if decide ("add" = reduce) then Some SUM
  else if decide ("mean" = reduce) then Some MEAN
  else if decide ("min" = reduce) then Some MIN
  else if decide ("max" = reduce) then Some MAX
  else None.
Proof. unfold reduce2REDUCE. rewrite !lookup_insert, lookup_empty. done. Qed.

Lemma reduce2REDUCE_mean (reduce : string) :
  reduce2REDUCE !! reduce = Some MEAN → reduce = "mean".
Proof.
  rewrite reduce2REDUCE_lookup. repeat case_decide; congruence.
Qed.

Lemma reduce2REDUCE_unknown (reduce : string) :
  reduce ∉ ["sum"; "add"; "mean"; "min"; "max"] →
  reduce2REDUCE_at reduce = Throw OutOfRange.
Proof.
  intros Hnot. unfold reduce2REDUCE_at. rewrite reduce2REDUCE_lookup.
  repeat case_decide; subst; try done; exfalso; apply Hnot; set_solver.
Qed.

Section Tokens.
Context {T : Type} `{Scalar T}.

(** C7. The tokens "sum" and "add" select the same reduction: on the same
    arguments [spmm] produces the same outcome under either. *)
Theorem spmm_sum_add_same (garbage : nat → T) (rowptr col : Tensor Z)
    (value_opt : option (Tensor T)) (mat : Tensor T) :
  spmm garbage rowptr col value_opt mat "sum"
  = spmm garbage rowptr col value_opt mat "add".
Proof.
  unfold spmm.
  change (reduce2REDUCE_at "add") with (reduce2REDUCE_at "sum").
  reflexivity.
Qed.

(** Apart from Mean the normalisation does not look at [rowptr]. *)
Lemma bw_entry_rowptr_indep (REDUCE : ReductionType)
    (row_data rowptr_data rowptr_data' col_data : list Z)
    (mat_data grad_data : list T) (M N K b e : Z) (out_data : list T) :
  REDUCE ≠ MEAN →
  bw_entry REDUCE row_data rowptr_data col_data mat_data grad_data
           M N K b e out_data
  = bw_entry REDUCE row_data rowptr_data' col_data mat_data grad_data
             M N K b e out_data.
Proof.
  intros Hne. unfold bw_entry, bw_normalize. by destruct REDUCE.
Qed.

(** C9. For every reduction token other than "mean" the outcome of
    [spmm_val_bw] does not depend on the [rowptr] argument beyond its
    device: two calls that differ only in the shape and contents of
    [rowptr] produce the same outcome. *)
Theorem spmm_val_bw_rowptr_indep (row rowptr rowptr' col : Tensor Z)
    (mat grad : Tensor T) (reduce : string) :
  reduce ≠ "mean" →
  is_cuda rowptr = is_cuda rowptr' →
  spmm_val_bw row rowptr col mat grad reduce
  = spmm_val_bw row rowptr' col mat grad reduce.
Proof.
  intros Hne Hdev. unfold spmm_val_bw, CHECK_CPU. rewrite Hdev.
  destruct (is_cuda row); [done |]. simpl.
  destruct (is_cuda rowptr'); [done |]. simpl.
  destruct (is_cuda col); [done |]. simpl.
  destruct (is_cuda mat); [done |]. simpl.
  destruct (is_cuda grad); [done |]. simpl.
  destruct (size grad (-2)) as [M | |]; [| done | done]. simpl.
  destruct (size mat (-2)) as [N | |]; [| done | done]. simpl.
  destruct (size mat (-1)) as [K | |]; [| done | done]. simpl.
  destruct (div64 (numel mat) (N * K)) as [B | |]; [| done | done]. simpl.
  destruct (torch_zeros (numel row)) as [out | |]; [| done | done]. simpl.
  unfold reduce2REDUCE_at.
  destruct (reduce2REDUCE !! reduce) as [REDUCE |] eqn:Hred; [| done]. simpl.
  assert (Hmean : REDUCE ≠ MEAN).
  { intros ->. by apply Hne, reduce2REDUCE_mean. }
  f_equal. unfold for_loop.
  apply for_range_ext. intros b o.
  apply for_range_ext. intros e o'.
  by apply bw_entry_rowptr_indep.
Qed.

(** C5. A reduction token other than "sum", "add", "mean", "min" and
    "max" never yields a result, from either operator; on arguments that
    are otherwise well-formed the outcome is the exception of
    [std::map::at], and no reduction is computed in its place. *)
Theorem unknown_reduction_rejected (reduce : string) :
  reduce ∉ ["sum"; "add"; "mean"; "min"; "max"] →
  (∀ garbage rowptr col value_opt (mat : Tensor T),
     is_Ok (spmm garbage rowptr col value_opt mat reduce) = false ∧
     (spmm_wf rowptr col value_opt mat = true →
      spmm garbage rowptr col value_opt mat reduce = Throw OutOfRange)) ∧
  (∀ row rowptr col (mat grad : Tensor T),
     is_Ok (spmm_val_bw row rowptr col mat grad reduce) = false ∧
     (bw_wf SUM row rowptr col mat grad = true →
      spmm_val_bw row rowptr col mat grad reduce = Throw OutOfRange)).
Proof.
  intros Hnot. assert (Hat := reduce2REDUCE_unknown reduce Hnot).
  split.
  - intros garbage rowptr col value_opt mat. split.
    + unfold spmm. rewrite Hat.
      destruct (CHECK_CPU rowptr); [| done | done]. simpl.
      destruct (CHECK_CPU col); [| done | done]. simpl.
      destruct (opt_check CHECK_CPU value_opt); [| done | done]. simpl.
      destruct (CHECK_CPU mat); [| done | done]. simpl.
      destruct (AT_ASSERTM (dim rowptr =? 1)); [| done | done]. simpl.
      destruct (AT_ASSERTM (dim col =? 1)); [| done | done]. simpl.
      destruct (opt_check _ value_opt); [| done | done]. simpl.
      destruct (AT_ASSERTM (2 <=? dim mat)); [| done | done]. simpl.
      destruct (write _ _ _); [| done | done]. simpl.
      destruct (torch_empty _ _); [| done | done]. done.
    + intros Hwf.
      destruct (spmm_wf_facts rowptr col value_opt mat Hwf)
        as (lead & N' & K' & Hs & HN & HK & HB & HNpos & HKpos & Hpl & Hlead &
            Hcr & Hcc & Hcm & Hcv & Hdv & Hdr & Hdc & HM & _).
      unfold spmm. rewrite Hat, Hcv, Hdv. unfold CHECK_CPU.
      rewrite Hcr, Hcc, Hcm. simpl.
      unfold AT_ASSERTM. rewrite Hdr, Hdc. simpl.
      assert (Hdm : (2 <=? dim mat) = true).
      { unfold dim. rewrite Hs, length_app. simpl. apply Z.leb_le. lia. }
      rewrite Hdm. simpl.
      unfold dim. rewrite Hs, write_rows. simpl.
      assert (Hshape : forallb (Z.leb 0) (lead ++ [numel rowptr - 1; K'])
                       = true).
      { rewrite forallb_app, Hlead. simpl. unfold rows_M in HM.
        destruct (Z.leb_spec 0 (numel rowptr - 1)); [| lia].
        destruct (Z.leb_spec 0 K'); [| lia]. done. }
      unfold torch_empty. by rewrite Hshape.
  - intros row rowptr col mat grad. split.
    + unfold spmm_val_bw. rewrite Hat.
      destruct (CHECK_CPU row); [| done | done]. simpl.
      destruct (CHECK_CPU rowptr); [| done | done]. simpl.
      destruct (CHECK_CPU col); [| done | done]. simpl.
      destruct (CHECK_CPU mat); [| done | done]. simpl.
      destruct (CHECK_CPU grad); [| done | done]. simpl.
      destruct (size grad (-2)); [| done | done]. simpl.
      destruct (size mat (-2)); [| done | done]. simpl.
      destruct (size mat (-1)); [| done | done]. simpl.
      destruct (div64 _ _); [| done | done]. simpl.
      destruct (torch_zeros _); [| done | done]. done.
    + intros Hwf.
      destruct (bw_wf_facts SUM row rowptr col mat grad Hwf)
        as (Hc1 & Hc2 & Hc3 & Hc4 & Hc5 & HsM & HsN & HsK & Hdiv & Hrl & _);
        [done |].
      unfold spmm_val_bw. rewrite Hat, Hc1, Hc2, Hc3, Hc4, Hc5. simpl.
      rewrite HsM, HsN, HsK. simpl. rewrite Hdiv. simpl.
      unfold torch_zeros.
      destruct (Z.leb_spec 0 (numel row)) as [_ | Hneg]; [done | lia].
Qed.

End Tokens.

(** C9, on the 2 x 2 example under Max: a [rowptr] of another shape and
    content gives the same gradient. *)
Lemma spmm_val_bw_rowptr_indep_witness :
  @spmm_val_bw Z (IntScalar I64) ex_row ex_rowptr ex_col ex_mat ex_grad "max"
  = @spmm_val_bw Z (IntScalar I64) ex_row (tensor1 [9; 9; 9; 9; 9]) ex_col
                 ex_mat ex_grad "max".
Proof.
  apply (@spmm_val_bw_rowptr_indep Z (IntScalar I64)).
  - discriminate.
  - reflexivity.
Defined.

(** C5, for the token "prod" on the 2 x 2 example. *)
Lemma unknown_reduction_rejected_witness :
  @spmm Z (IntScalar I64) ex_garbage ex_rowptr ex_col (Some ex_value) ex_mat
        "prod" = Throw OutOfRange ∧
  @spmm_val_bw Z (IntScalar I64) ex_row ex_rowptr ex_col ex_mat ex_grad "prod"
  = Throw OutOfRange.
Proof.
  assert (Hnot : "prod" ∉ ["sum"; "add"; "mean"; "min"; "max"]).
  { intros Hin. repeat (apply elem_of_cons in Hin as [Hin | Hin];
                        [discriminate |]).
    by apply elem_of_nil in Hin. }
  destruct (@unknown_reduction_rejected Z (IntScalar I64) "prod" Hnot)
    as [Hfw Hbw].
  split.
  - apply (Hfw ex_garbage ex_rowptr ex_col (Some ex_value) ex_mat).
    vm_compute. reflexivity.
  - apply (Hbw ex_row ex_rowptr ex_col ex_mat ex_grad).
    vm_compute. reflexivity.
Defined.


(** ** Min and Max: the reported index *)

(** C3, at a failing input. With [uint8_t] elements and reduction "min",
    row 1 of the well-formed matrix has the single entry 1, whose
    contribution is 255. The accumulator starts at 255, the strict
    comparison of [Reducer::update] never fires, and [args] still holds
    the index left by row 0: [arg_out[0, 1, 0]] is 0, an entry of row 0,
    where the entries of row 1 are [1, 2). *)
Theorem spmm_min_reports_stale_index :
  spmm_wf top_rowptr top_col (@None (Tensor Z)) top_mat = true ∧
  @spmm Z (IntScalar U8) ex_garbage top_rowptr top_col None top_mat "min"
  = Ok (mkTensor false [1; 2; 1] [7; 255],
        Some (mkTensor false [1; 2; 1] [0; 0])) ∧
  row_entries (data top_rowptr) 1 = [1].
Proof. repeat split; vm_compute; reflexivity. Qed.

(** The same happens under "max" at the lowest value of a signed type. *)
Example spmm_max_reports_stale_index :
  @spmm Z (IntScalar I8) ex_garbage top_rowptr top_col None
        (mkTensor false [1; 2; 1] [7; -128]) "max"
  = Ok (mkTensor false [1; 2; 1] [7; -128],
        Some (mkTensor false [1; 2; 1] [0; 0])).
Proof. vm_compute. reflexivity. Qed.

(** C8, at a failing input. Row 1 has the entries 1 and 2, which tie at
    the contribution 255 under "min" on [uint8_t]; the first of them is
    entry 1, and the index reported for the row is 0, the one left in
    [args] by row 0. *)
Theorem spmm_min_tie_reports_stale_index :
  spmm_wf tie_rowptr tie_col (@None (Tensor Z)) top_mat = true ∧
  @spmm Z (IntScalar U8) ex_garbage tie_rowptr tie_col None top_mat "min"
  = Ok (mkTensor false [1; 2; 1] [7; 255],
        Some (mkTensor false [1; 2; 1] [0; 0])) ∧
  row_entries (data tie_rowptr) 1 = [1; 2] ∧
  @contribution Z (IntScalar U8) (data tie_col) None (data top_mat) 2 1 0 0 1
  = 255 ∧
  @contribution Z (IntScalar U8) (data tie_col) None (data top_mat) 2 1 0 0 2
  = 255.
Proof. repeat split; vm_compute; reflexivity. Qed.

(** ** Shape validation in the backward operator *)

(** C6, at a failing input. [spmm_val_bw] checks devices only: with [row]
    and [rowptr] of rank 2, more column indices than entries and a
    gradient of three rows it computes and returns a gradient, where
    [spmm] rejects a [rowptr] of rank 2. *)
Theorem spmm_val_bw_accepts_mismatched_shapes :
  @spmm_val_bw Z (IntScalar I64) odd_row odd_rowptr odd_col odd_mat odd_grad
               "sum"
  = Ok (mkTensor false [2] [10; 10]) ∧
  @spmm Z (IntScalar I64) ex_garbage odd_rowptr odd_col None odd_mat "sum"
  = Throw InputMismatch.
Proof. split; vm_compute; reflexivity. Qed.


(** ** Min and Max where the index is well determined

    The two failing inputs above have one cause: a contribution equal to
    the accumulator's initial extreme never replaces it. Whenever a row
    has a contribution strictly better than that extreme, the reported
    index is the first entry that attains the row's extremum. *)

Section MinMaxInt.
Variable k : IntKind.

Lemma update_better (REDUCE : ReductionType) (v x a e : Z) :
  is_minmax REDUCE = true →
  @Reducer_update Z (IntScalar k) REDUCE v x a e
  = if better REDUCE x v then (x, e) else (v, a).
Proof. by destruct REDUCE. Qed.

Lemma better_cases (REDUCE : ReductionType) (x v : Z) :
  is_minmax REDUCE = true →
  (better REDUCE x v = true ∧ better REDUCE v x = false ∧ x ≠ v) ∨
  (better REDUCE x v = false ∧ better REDUCE v x = true ∧ x ≠ v) ∨
  (better REDUCE x v = false ∧ better REDUCE v x = false ∧ x = v).
Proof.
  intros Hmm.
  destruct (Z.lt_trichotomy x v) as [Hlt | [Heq | Hgt]];
    destruct REDUCE; try discriminate; simpl.
  - left. split; [by apply Z.ltb_lt |]. split; [apply Z.ltb_ge |]; lia.
  - right. left. split; [apply Z.ltb_ge; lia |].
    split; [apply Z.ltb_lt |]; lia.
  - right. right. split; [apply Z.ltb_ge; lia |].
    split; [apply Z.ltb_ge; lia | done].
  - right. right. split; [apply Z.ltb_ge; lia |].
    split; [apply Z.ltb_ge; lia | done].
  - right. left. split; [apply Z.ltb_ge; lia |].
    split; [apply Z.ltb_lt |]; lia.
  - left. split; [by apply Z.ltb_lt |]. split; [apply Z.ltb_ge |]; lia.
Qed.

Lemma better_trans (REDUCE : ReductionType) (x y z : Z) :
  better REDUCE x y = true → better REDUCE z y = false →
  better REDUCE x z = true.
Proof.
  destruct REDUCE; simpl; try discriminate;
    rewrite !Z.ltb_lt, Z.ltb_ge; lia.
Qed.

Lemma better_trans' (REDUCE : ReductionType) (x y z : Z) :
  better REDUCE x y = false → better REDUCE y z = false →
  better REDUCE x z = false.
Proof.
  destruct REDUCE; simpl; try done; rewrite !Z.ltb_ge; lia.
Qed.

Lemma better_trans2 (REDUCE : ReductionType) (x y z : Z) :
  better REDUCE x y = true → better REDUCE x z = false →
  better REDUCE z y = true.
Proof.
  destruct REDUCE; simpl; try discriminate;
    rewrite !Z.ltb_lt, Z.ltb_ge; lia.
Qed.

(** The accumulator after a row, started from [(v0, a0)]. *)
Lemma reduce_row_minmax (REDUCE : ReductionType) (f : Z → Z) (es : list Z)
    (v0 a0 : Z) :
  is_minmax REDUCE = true →
  let st := @reduce_row Z (IntScalar k) REDUCE f es (v0, a0) in
  better REDUCE v0 st.1 = false ∧
  (st.1 = v0 ∨ ∃ e, e ∈ es ∧ f e = st.1) ∧
  (∀ e, e ∈ es → better REDUCE (f e) st.1 = false) ∧
  ((∀ e, e ∈ es → better REDUCE (f e) v0 = false) → st = (v0, a0)) ∧
  ((∃ e, e ∈ es ∧ better REDUCE (f e) v0 = true) →
   ∃ i : nat, es !! i = Some st.2 ∧ f st.2 = st.1 ∧
     ∀ (j : nat) e', (j < i)%nat → es !! j = Some e' →
                     better REDUCE st.1 (f e') = true).
Proof.
  intros Hmm. induction es as [| e es IH] using rev_ind; simpl.
  - split.
    { destruct (better_cases REDUCE v0 v0 Hmm) as [H | [H | H]];
        [by destruct H as (_ & _ & ?) | by destruct H as (_ & _ & ?)
        | by destruct H as (? & _)]. }
    split; [by left |].
    split; [intros e He; by apply elem_of_nil in He |].
    split; [done |].
    intros (e & He & _). by apply elem_of_nil in He.
  - destruct IH as (Hv0 & Hatt & Hall & Hnone & Hsome).
    rewrite reduce_row_snoc, update_better; [| done].
    destruct (@reduce_row Z (IntScalar k) REDUCE f es (v0, a0)) as [v a]
      eqn:Hst. simpl in *.
    destruct (better REDUCE (f e) v) eqn:Hbe; simpl.
    + (* the new entry replaces the accumulator *)
      assert (Hself : better REDUCE (f e) (f e) = false).
      { destruct (better_cases REDUCE (f e) (f e) Hmm) as [H | [H | H]];
          [by destruct H as (_ & _ & ?) | by destruct H as (_ & _ & ?)
          | by destruct H as (? & _)]. }
      assert (Hve : better REDUCE v (f e) = false).
      { destruct (better_cases REDUCE (f e) v Hmm) as [H | [H | H]];
          destruct H as (? & ? & ?); congruence. }
      split; [by apply (better_trans' REDUCE v0 v (f e)) |].
      split.
      { right. exists e. split; [| done]. apply elem_of_app. right.
        by apply list_elem_of_singleton. }
      split.
      { intros e' He'. apply elem_of_app in He' as [He' | He'].
        - apply (better_trans' REDUCE (f e') v (f e)); [by apply Hall | done].
        - apply list_elem_of_singleton in He' as ->. done. }
      split.
      { intros Hno. exfalso.
        assert (Hb : better REDUCE (f e) v0 = true)
          by (by apply (better_trans REDUCE (f e) v v0)).
        rewrite Hno in Hb; [done |]. apply elem_of_app. right.
        by apply list_elem_of_singleton. }
      intros _. exists (length es).
      split; [by rewrite list_lookup_middle |]. split; [done |].
      intros j e' Hj He'. rewrite lookup_app_l in He'; [| done].
      apply (better_trans REDUCE (f e) v (f e')); [done |].
      apply Hall. apply list_elem_of_lookup. by exists j.
    + (* the accumulator stays *)
      split; [done |].
      split.
      { destruct Hatt as [-> | (e1 & He1 & Hfe1)]; [by left |].
        right. exists e1. split; [| done]. apply elem_of_app. by left. }
      split.
      { intros e' He'. apply elem_of_app in He' as [He' | He'].
        - by apply Hall.
        - apply list_elem_of_singleton in He' as ->. done. }
      split.
      { intros Hno. apply Hnone. intros e' He'. apply Hno.
        apply elem_of_app. by left. }
      intros (e' & He' & Hbe').
      assert (Hin : ∃ e1, e1 ∈ es ∧ better REDUCE (f e1) v0 = true).
      { apply elem_of_app in He' as [He' | He']; [by exists e' |].
        apply list_elem_of_singleton in He' as ->.
        destruct Hatt as [-> | (e1 & He1 & Hfe1)]; [congruence |].
        exists e1. split; [done |]. rewrite Hfe1.
        by apply (better_trans2 REDUCE (f e) v0 v). }
      destruct (Hsome Hin) as (i & Hi & Hfi & Hfirst).
      exists i. split; [by apply lookup_app_l_Some |]. split; [done |].
      intros j e1 Hj He1. apply (Hfirst j e1 Hj).
      rewrite lookup_app_l in He1; [done |].
      apply lookup_lt_Some in Hi. lia.
Qed.

End MinMaxInt.


(** On well-formed arguments, for Min and Max over an integral element
    type: an empty row yields the value 0 and the index [E]; on a
    non-empty row no entry is strictly better than the value written;
    and when some entry is strictly better than the initial extreme, the
    reported index is an entry of the row that attains the value, and
    every earlier entry of the row is strictly worse. *)
Theorem spmm_minmax_index (k : IntKind) (garbage : nat → Z)
    (rowptr col : Tensor Z) (value_opt : option (Tensor Z)) (mat : Tensor Z)
    (reduce : string) (REDUCE : ReductionType) :
  reduce2REDUCE !! reduce = Some REDUCE →
  is_minmax REDUCE = true →
  spmm_wf rowptr col value_opt mat = true →
  let M := rows_M rowptr in
  let N := cols_N mat in
  let K := feat_K mat in
  let B := batch_B mat in
  ∃ out ao,
    @spmm Z (IntScalar k) garbage rowptr col value_opt mat reduce
    = Ok (out, Some ao) ∧
    ∀ b m kk, 0 ≤ b < B → 0 ≤ m < M → 0 ≤ kk < K →
      let f := @contribution Z (IntScalar k) (data col) (data <$> value_opt)
                 (data mat) N K b kk in
      let es := row_entries (data rowptr) m in
      ∃ v a,
        data out !! Z.to_nat (b * M * K + m * K + kk) = Some v ∧
        data ao !! Z.to_nat (b * M * K + m * K + kk) = Some a ∧
        (row_degree (data rowptr) m = 0 → v = 0 ∧ a = numel col) ∧
        (0 < row_degree (data rowptr) m →
         ∀ e, e ∈ es → better REDUCE (f e) v = false) ∧
        ((∃ e, e ∈ es ∧
               better REDUCE (f e) (@Reducer_init Z (IntScalar k) REDUCE)
               = true) →
         a ∈ es ∧ f a = v ∧
         ∀ e, e ∈ es → e < a → better REDUCE v (f e) = true).
Proof.
  intros Hred Hmm Hwf M N K B. subst M N K B.
  destruct (@spmm_spec Z (IntScalar k) garbage rowptr col value_opt mat reduce
              REDUCE Hred Hwf) as (out & arg_out & Hrun & _ & Hval & Harg).
  rewrite Hmm in Harg. destruct Harg as (ao & -> & _ & _ & Harg).
  exists out, ao. split; [done |].
  intros b m kk Hb Hm Hk f es.
  specialize (Hval b m kk Hb Hm Hk). specialize (Harg b m kk Hb Hm Hk).
  unfold row_value, written in Hval. fold f es in Hval, Harg.
  assert (Hw : ∀ v, match REDUCE with
                    | SUM => v
                    | MEAN => @s_div_int Z (IntScalar k) v
                                (if 0 <? row_degree (data rowptr) m
                                 then row_degree (data rowptr) m else 1)
                    | _ => if 0 <? row_degree (data rowptr) m then v
                           else @s_zero Z (IntScalar k)
                    end
                    = if 0 <? row_degree (data rowptr) m then v else 0)
    by (intros v; by destruct REDUCE).
  rewrite Hw in Hval. clear Hw.
  destruct (Z.ltb_spec 0 (row_degree (data rowptr) m)) as [Hdeg | Hdeg].
  - destruct Harg as (a0 & Harg).
    eexists _, _. split; [exact Hval |]. split; [exact Harg |].
    split; [lia |].
    destruct (reduce_row_minmax k REDUCE f es
                (@Reducer_init Z (IntScalar k) REDUCE) a0 Hmm)
      as (_ & _ & Hall & _ & Hsome).
    rewrite (reduce_row_fst_indep REDUCE f es _
               (@Reducer_init Z (IntScalar k) REDUCE, a0)); [| done].
    split; [done |].
    intros Hex. destruct (Hsome Hex) as (i & Hi & Hfi & Hfirst).
    split; [apply list_elem_of_lookup; by exists i |]. split; [done |].
    intros e He Hlt. apply list_elem_of_lookup in He as [j Hj].
    apply (Hfirst j e); [| done].
    subst es. unfold row_entries in Hi, Hj, Hlt.
    apply lookup_seqZ in Hi as [Hi _]. apply lookup_seqZ in Hj as [Hj _].
    clear - Hi Hj Hlt. lia.
  - eexists _, _. split; [exact Hval |]. split; [exact Harg |].
    assert (Hes : es = []).
    { subst es. unfold row_entries.
      destruct (row_degree (data rowptr) m) eqn:Hd; try lia; done. }
    split; [done |]. split; [lia |].
    intros (e & He & _). rewrite Hes in He. by apply elem_of_nil in He.
Qed.

(** The spec's second scenario (Max on the 2 x 2 example), evaluated. *)
Example spmm_max_example :
  @spmm Z (IntScalar I64) ex_garbage ex_rowptr ex_col (Some ex_value)
        ex_mat "max"
  = Ok (mkTensor false [1; 2; 1] [14; 15],
        Some (mkTensor false [1; 2; 1] [1; 2])).
Proof. vm_compute. reflexivity. Qed.

(** A row without entries under Min: value 0 and the index [E = 3]. *)
Example spmm_min_empty_row :
  @spmm Z (IntScalar I64) ex_garbage (tensor1 [0; 2; 2; 3]) ex_col
        (Some ex_value) ex_mat "min"
  = Ok (mkTensor false [1; 3; 1] [5; 0; 15],
        Some (mkTensor false [1; 3; 1] [0; 3; 2])).
Proof. vm_compute. reflexivity. Qed.


(** ** Min and Max: the order of a row's entries *)

Lemma reduce_row_best (k : IntKind) (REDUCE : ReductionType) (f : Z → Z)
    (es : list Z) (v0 a0 : Z) :
  is_minmax REDUCE = true →
  (@reduce_row Z (IntScalar k) REDUCE f es (v0, a0)).1
  = foldl (best REDUCE) v0 (f <$> es).
Proof.
  intros Hmm. revert v0 a0. induction es as [| e es IH]; intros v0 a0; [done |].
  simpl. rewrite update_better; [| done]. unfold best at 2.
  destruct (better REDUCE (f e) v0); apply IH.
Qed.

Lemma best_swap (REDUCE : ReductionType) (v x y : Z) :
  best REDUCE (best REDUCE v x) y = best REDUCE (best REDUCE v y) x.
Proof.
  unfold best, better. destruct REDUCE; try done.
  - destruct (Z.ltb_spec x v), (Z.ltb_spec y v); simpl;
      repeat match goal with
             | |- context [?a <? ?b] => destruct (Z.ltb_spec a b)
             end; lia.
  - destruct (Z.ltb_spec v x), (Z.ltb_spec v y); simpl;
      repeat match goal with
             | |- context [?a <? ?b] => destruct (Z.ltb_spec a b)
             end; lia.
Qed.

Lemma foldl_best_perm (REDUCE : ReductionType) (xs ys : list Z) (v0 : Z) :
  xs ≡ₚ ys → foldl (best REDUCE) v0 xs = foldl (best REDUCE) v0 ys.
Proof.
  intros Hp. revert v0.
  induction Hp as [| x xs ys _ IH | x y xs | xs ys zs _ IH1 _ IH2];
    intros v0; simpl.
  - done.
  - apply IH.
  - by rewrite best_swap.
  - by rewrite IH1.
Qed.

(** Under Min and Max the output values depend on the contributions of a
    row only as a multiset: two well-formed CSR structures over the same
    [rowptr] and dense operand whose rows carry the same contributions in
    a different order produce the same values. (The reported indices may
    differ.) *)
Theorem spmm_minmax_values_perm (k : IntKind) (garbage garbage' : nat → Z)
    (rowptr col col' : Tensor Z) (value_opt value_opt' : option (Tensor Z))
    (mat : Tensor Z) (reduce : string) (REDUCE : ReductionType) :
  reduce2REDUCE !! reduce = Some REDUCE →
  is_minmax REDUCE = true →
  spmm_wf rowptr col value_opt mat = true →
  spmm_wf rowptr col' value_opt' mat = true →
  let M := rows_M rowptr in
  let N := cols_N mat in
  let K := feat_K mat in
  let B := batch_B mat in
  (∀ b m kk, 0 ≤ b < B → 0 ≤ m < M → 0 ≤ kk < K →
     @contribution Z (IntScalar k) (data col) (data <$> value_opt) (data mat)
       N K b kk <$> row_entries (data rowptr) m
     ≡ₚ @contribution Z (IntScalar k) (data col') (data <$> value_opt')
          (data mat) N K b kk <$> row_entries (data rowptr) m) →
  ∃ out out' ao ao',
    @spmm Z (IntScalar k) garbage rowptr col value_opt mat reduce
    = Ok (out, ao) ∧
    @spmm Z (IntScalar k) garbage' rowptr col' value_opt' mat reduce
    = Ok (out', ao') ∧
    ∀ b m kk, 0 ≤ b < B → 0 ≤ m < M → 0 ≤ kk < K →
      data out !! Z.to_nat (b * M * K + m * K + kk)
      = data out' !! Z.to_nat (b * M * K + m * K + kk).
Proof.
  intros Hred Hmm Hwf Hwf' M N K B Hperm. subst M N K B.
  destruct (@spmm_spec Z (IntScalar k) garbage rowptr col value_opt mat reduce
              REDUCE Hred Hwf) as (out & ao & Hrun & _ & Hval & _).
  destruct (@spmm_spec Z (IntScalar k) garbage' rowptr col' value_opt' mat
              reduce REDUCE Hred Hwf') as (out' & ao' & Hrun' & _ & Hval' & _).
  exists out, out', ao, ao'. split; [done |]. split; [done |].
  intros b m kk Hb Hm Hk.
  rewrite (Hval b m kk Hb Hm Hk), (Hval' b m kk Hb Hm Hk).
  unfold row_value. rewrite !reduce_row_best; [| done | done].
  by rewrite (foldl_best_perm REDUCE _ _ _ (Hperm b m kk Hb Hm Hk)).
Qed.


(** * Further properties of the operators *)

(** ** The order of the checks *)

Lemma size_rank2 {A} (t : Tensor A) :
  2 ≤ dim t →
  size t (-2) = Ok (size_or0 t (-2)) ∧ size t (-1) = Ok (size_or0 t (-1)).
Proof.
  intros Hd. destruct (sizes_split (sizes t)) as (lead & N & K & Hs);
    [unfold dim in Hd; lia |].
  destruct (size_last t lead N K Hs) as [HK HN].
  unfold size_or0. by rewrite HK, HN.
Qed.

Lemma size_low_rank {A} (t : Tensor A) :
  dim t < 2 → size t (-2) = Throw IndexError.
Proof.
  intros Hd. unfold size. simpl.
  destruct (Z.leb_spec 0 (-2 + dim t)); [lia | done].
Qed.

Section Checks.
Context {T : Type} `{Scalar T}.

(** [spmm] looks at the devices first: with any argument on a CUDA
    device the outcome is the failure of [CHECK_CPU], whatever the
    shapes, the contents and the reduction token are. *)
Theorem spmm_rejects_cuda (garbage : nat → T) (rowptr col : Tensor Z)
    (value_opt : option (Tensor T)) (mat : Tensor T) (reduce : string) :
  on_cpu rowptr && on_cpu col && opt_all on_cpu value_opt && on_cpu mat
  = false →
  spmm garbage rowptr col value_opt mat reduce = Throw NotCPU.
Proof.
  unfold on_cpu, spmm, CHECK_CPU. intros Hdev.
  destruct (is_cuda rowptr); [done |]. simpl.
  destruct (is_cuda col); [done |]. simpl.
  destruct value_opt as [v |]; simpl in *.
  - destruct (is_cuda v); [done |]. simpl.
    destruct (is_cuda mat); [done | discriminate].
  - destruct (is_cuda mat); [done | discriminate].
Qed.

(** With every argument on the CPU, a [rowptr], [col] or value tensor
    whose rank is not 1, or a dense operand of rank below 2, makes [spmm]
    fail its rank assertion, before the reduction token is looked at and
    before anything is allocated or computed. *)
Theorem spmm_rejects_bad_rank (garbage : nat → T) (rowptr col : Tensor Z)
    (value_opt : option (Tensor T)) (mat : Tensor T) (reduce : string) :
  on_cpu rowptr && on_cpu col && opt_all on_cpu value_opt && on_cpu mat
  = true →
  (dim rowptr =? 1) && (dim col =? 1)
  && opt_all (λ v, dim v =? 1) value_opt && (2 <=? dim mat) = false →
  spmm garbage rowptr col value_opt mat reduce = Throw InputMismatch.
Proof.
  unfold on_cpu, spmm, CHECK_CPU, AT_ASSERTM. intros Hdev Hrank.
  destruct (is_cuda rowptr); [discriminate |]. simpl.
  destruct (is_cuda col); [discriminate |]. simpl.
  destruct value_opt as [v |]; simpl in *.
  - destruct (is_cuda v); [discriminate |]. simpl.
    destruct (is_cuda mat); [discriminate |]. simpl.
    destruct (dim rowptr =? 1); [| done]. simpl.
    destruct (dim col =? 1); [| done]. simpl.
    destruct (dim v =? 1); [| done]. simpl.
    destruct (2 <=? dim mat); [discriminate | done].
  - destruct (is_cuda mat); [discriminate |]. simpl.
    destruct (dim rowptr =? 1); [| done]. simpl.
    destruct (dim col =? 1); [| done]. simpl.
    destruct (2 <=? dim mat); [discriminate | done].
Qed.

(** [spmm_val_bw] looks at the devices first as well. *)
Theorem spmm_val_bw_rejects_cuda (row rowptr col : Tensor Z)
    (mat grad : Tensor T) (reduce : string) :
  on_cpu row && on_cpu rowptr && on_cpu col && on_cpu mat && on_cpu grad
  = false →
  spmm_val_bw row rowptr col mat grad reduce = Throw NotCPU.
Proof.
  unfold on_cpu, spmm_val_bw, CHECK_CPU. intros Hdev.
  destruct (is_cuda row); [done |]. simpl.
  destruct (is_cuda rowptr); [done |]. simpl.
  destruct (is_cuda col); [done |]. simpl.
  destruct (is_cuda mat); [done |]. simpl.
  destruct (is_cuda grad); [done | discriminate].
Qed.

(** The one shape condition [spmm_val_bw] does enforce is implicit: it
    asks the gradient and the dense operand for their second-to-last
    extent, so with every argument on the CPU a gradient or a dense
    operand of rank below 2 raises the index error of [Tensor::size],
    whatever the token. *)
Theorem spmm_val_bw_low_rank_raises (row rowptr col : Tensor Z)
    (mat grad : Tensor T) (reduce : string) :
  on_cpu row && on_cpu rowptr && on_cpu col && on_cpu mat && on_cpu grad
  = true →
  (2 <=? dim grad) && (2 <=? dim mat) = false →
  spmm_val_bw row rowptr col mat grad reduce = Throw IndexError.
Proof.
  intros Hdev Hrank.
  apply andb_prop in Hdev as [Hdev Hg]. apply andb_prop in Hdev as [Hdev Hm].
  apply andb_prop in Hdev as [Hdev Hc]. apply andb_prop in Hdev as [Hr Hp].
  unfold spmm_val_bw. rewrite !on_cpu_check; try done. simpl.
  destruct (Z.leb_spec 2 (dim grad)) as [Hdg | Hdg].
  - destruct (size_rank2 grad Hdg) as [-> _]. simpl.
    destruct (Z.leb_spec 2 (dim mat)) as [Hdm | Hdm]; [discriminate |].
    by rewrite (size_low_rank mat Hdm).
  - by rewrite (size_low_rank grad Hdg).
Qed.

(** A dense operand whose last two extents multiply to zero makes
    [spmm_val_bw] divide by zero when it computes the batch count
    (line 194): with the arguments on the CPU and of rank at least 2 the
    call is undefined, whatever the other arguments and the token. *)
Theorem spmm_val_bw_zero_width_undefined (row rowptr col : Tensor Z)
    (mat grad : Tensor T) (reduce : string) :
  on_cpu row && on_cpu rowptr && on_cpu col && on_cpu mat && on_cpu grad
  = true →
  (2 <=? dim grad) && (2 <=? dim mat) = true →
  cols_N mat * feat_K mat = 0 →
  spmm_val_bw row rowptr col mat grad reduce = Undef.
Proof.
  intros Hdev Hrank Hzero.
  apply andb_prop in Hdev as [Hdev Hg]. apply andb_prop in Hdev as [Hdev Hm].
  apply andb_prop in Hdev as [Hdev Hc]. apply andb_prop in Hdev as [Hr Hp].
  apply andb_prop in Hrank as [Hdg Hdm].
  unfold spmm_val_bw. rewrite !on_cpu_check; try done. simpl.
  destruct (size_rank2 grad) as [-> _]; [lia |]. simpl.
  destruct (size_rank2 mat) as [-> ->]; [lia |]. simpl.
  unfold cols_N, feat_K in Hzero. unfold div64. by rewrite Hzero.
Qed.

(** The backward kernel treats every reduction but Mean alike: on the
    same arguments the tokens "add", "min" and "max" give the outcome of
    "sum". *)
Theorem spmm_val_bw_minmax_as_sum (row rowptr col : Tensor Z)
    (mat grad : Tensor T) :
  spmm_val_bw row rowptr col mat grad "add"
  = spmm_val_bw row rowptr col mat grad "sum" ∧
  spmm_val_bw row rowptr col mat grad "min"
  = spmm_val_bw row rowptr col mat grad "sum" ∧
  spmm_val_bw row rowptr col mat grad "max"
  = spmm_val_bw row rowptr col mat grad "sum".
Proof.
  assert (Hgen : ∀ reduce r, reduce2REDUCE_at reduce = Ok r → r ≠ MEAN →
            spmm_val_bw row rowptr col mat grad reduce
            = spmm_val_bw row rowptr col mat grad "sum").
  { intros reduce r Hat Hne. unfold spmm_val_bw. rewrite Hat.
    change (reduce2REDUCE_at "sum") with (@Ok ReductionType SUM).
    destruct (CHECK_CPU row); [| done | done]. simpl.
    destruct (CHECK_CPU rowptr); [| done | done]. simpl.
    destruct (CHECK_CPU col); [| done | done]. simpl.
    destruct (CHECK_CPU mat); [| done | done]. simpl.
    destruct (CHECK_CPU grad); [| done | done]. simpl.
    destruct (size grad (-2)) as [M | |]; [| done | done]. simpl.
    destruct (size mat (-2)) as [N | |]; [| done | done]. simpl.
    destruct (size mat (-1)) as [K | |]; [| done | done]. simpl.
    destruct (div64 (numel mat) (N * K)) as [B | |]; [| done | done]. simpl.
    destruct (torch_zeros (numel row)) as [out | |]; [| done | done]. simpl.
    f_equal. unfold for_loop.
    apply for_range_ext. intros b o. apply for_range_ext. intros e o'.
    unfold bw_entry, bw_normalize. by destruct r. }
  split; [| split].
  - by apply (Hgen "add" SUM).
  - by apply (Hgen "min" MIN).
  - by apply (Hgen "max" MAX).
Qed.

End Checks.


Section ZeroWidth.
Context {T : Type} `{Scalar T}.

(** The same division (line 124) in [spmm]: once the devices, the ranks
    and the token have been accepted and the output allocated, a dense
    operand whose last two extents multiply to zero makes the call
    undefined. *)
Theorem spmm_zero_width_undefined (garbage : nat → T) (rowptr col : Tensor Z)
    (value_opt : option (Tensor T)) (mat : Tensor T) (reduce : string)
    (REDUCE : ReductionType) :
  on_cpu rowptr && on_cpu col && opt_all on_cpu value_opt && on_cpu mat
  = true →
  (dim rowptr =? 1) && (dim col =? 1)
  && opt_all (λ v, dim v =? 1) value_opt && (2 <=? dim mat) = true →
  forallb (Z.leb 0) (sizes mat) = true →
  1 ≤ numel rowptr →
  reduce2REDUCE !! reduce = Some REDUCE →
  cols_N mat * feat_K mat = 0 →
  spmm garbage rowptr col value_opt mat reduce = Undef.
Proof.
  intros Hdev Hrank Hpos Hrows Hred Hzero.
  apply andb_prop in Hdev as [Hdev Hcm]. apply andb_prop in Hdev as [Hdev Hcv].
  apply andb_prop in Hdev as [Hcr Hcc].
  apply andb_prop in Hrank as [Hrank Hdm].
  apply andb_prop in Hrank as [Hrank Hdv].
  apply andb_prop in Hrank as [Hdr Hdc].
  destruct (sizes_split (sizes mat)) as (lead & N & K & Hs);
    [unfold dim in Hdm; lia |].
  destruct (size_last mat lead N K Hs) as [HsK HsN].
  unfold cols_N, feat_K, size_or0 in Hzero. rewrite HsN, HsK in Hzero.
  unfold spmm. rewrite !on_cpu_check; try done. simpl.
  assert (Hcv' : opt_check CHECK_CPU value_opt = Ok ()).
  { destruct value_opt as [v |]; [| done]. by apply on_cpu_check. }
  assert (Hdv' : opt_check (λ v, AT_ASSERTM (dim v =? 1)) value_opt = Ok ()).
  { destruct value_opt as [v |]; [| done]. simpl in *. by rewrite Hdv. }
  rewrite Hcv', Hdv', Hdr, Hdc, Hdm. simpl.
  unfold dim. rewrite Hs, write_rows. simpl.
  rewrite Hs, forallb_app in Hpos. apply andb_prop in Hpos as [Hlead HNK].
  simpl in HNK.
  assert (Hshape : forallb (Z.leb 0) (lead ++ [numel rowptr - 1; K]) = true).
  { rewrite forallb_app, Hlead. simpl.
    destruct (Z.leb_spec 0 (numel rowptr - 1)); [| lia].
    destruct (Z.leb_spec 0 K); [done | lia]. }
  unfold torch_empty. rewrite Hshape. simpl.
  unfold reduce2REDUCE_at. rewrite Hred. simpl.
  rewrite HsN, HsK. simpl. unfold div64. by rewrite Hzero.
Qed.

End ZeroWidth.

(** A dense operand of shape (1, 2, 0). *)
Lemma spmm_zero_width_undefined_witness :
  @spmm Z (IntScalar I64) ex_garbage ex_rowptr ex_col (Some ex_value)
        (mkTensor false [1; 2; 0] []) "sum" = Undef.
Proof.
  apply (@spmm_zero_width_undefined Z (IntScalar I64) ex_garbage ex_rowptr
           ex_col (Some ex_value) (mkTensor false [1; 2; 0] []) "sum" SUM);
    try reflexivity.
  vm_compute. discriminate.
Defined.

Lemma spmm_val_bw_zero_width_undefined_witness :
  @spmm_val_bw Z (IntScalar I64) ex_row ex_rowptr ex_col
               (mkTensor false [1; 2; 0] []) (mkTensor false [1; 2; 0] [])
               "sum" = Undef.
Proof.
  apply (@spmm_val_bw_zero_width_undefined Z (IntScalar I64)); reflexivity.
Defined.

Lemma spmm_rejects_cuda_witness :
  @spmm Z (IntScalar I64) ex_garbage ex_rowptr (mkTensor true [3] [0; 1; 0])
        (Some ex_value) ex_mat "sum" = Throw NotCPU.
Proof. apply (@spmm_rejects_cuda Z (IntScalar I64)). reflexivity. Defined.

Lemma spmm_rejects_bad_rank_witness :
  @spmm Z (IntScalar I64) ex_garbage odd_rowptr ex_col (Some ex_value) ex_mat
        "prod" = Throw InputMismatch.
Proof.
  apply (@spmm_rejects_bad_rank Z (IntScalar I64)); reflexivity.
Defined.

Lemma spmm_val_bw_rejects_cuda_witness :
  @spmm_val_bw Z (IntScalar I64) ex_row ex_rowptr ex_col ex_mat
               (mkTensor true [1; 2; 1] [10; 100]) "mean" = Throw NotCPU.
Proof. apply (@spmm_val_bw_rejects_cuda Z (IntScalar I64)). reflexivity. Defined.

Lemma spmm_val_bw_low_rank_raises_witness :
  @spmm_val_bw Z (IntScalar I64) ex_row ex_rowptr ex_col ex_mat
               (tensor1 [10; 100]) "sum" = Throw IndexError.
Proof.
  apply (@spmm_val_bw_low_rank_raises Z (IntScalar I64)); reflexivity.
Defined.


(** ** What a returned result always looks like

    Invariants of the kernels that need no assumption on the arguments:
    they hold of every call that returns. *)

Lemma bind_Ok {A B} (m : Res A) (f : A → Res B) (b : B) :
  m ≫= f = Ok b → ∃ a, m = Ok a ∧ f a = Ok b.
Proof. destruct m as [a | |]; simpl; [eauto | done | done]. Qed.

Lemma read_inv {A} (p : list A) (i : Z) (x : A) :
  read p i = Ok x → 0 ≤ i < Z.of_nat (length p) ∧ p !! Z.to_nat i = Some x.
Proof.
  unfold read. destruct (Z.ltb_spec i 0); [done |].
  destruct (p !! Z.to_nat i) as [y |] eqn:Hy; [| done].
  intros [= <-]. apply lookup_lt_Some in Hy as Hlt. split; [lia | done].
Qed.

Lemma write_inv {A} (p p' : list A) (i : Z) (x : A) :
  write p i x = Ok p' →
  0 ≤ i < Z.of_nat (length p) ∧ p' = <[Z.to_nat i := x]> p.
Proof.
  unfold write. destruct (Z.leb_spec 0 i), (Z.ltb_spec i (Z.of_nat (length p)));
    simpl; try done.
  intros [= <-]. split; [lia | done].
Qed.

(** A property that every iteration preserves holds when the loop
    returns. *)
Lemma for_range_partial {S} (J : S → Prop) (body : Z → S → Res S)
    (n : nat) (lo : Z) (s s' : S) :
  for_range lo n body s = Ok s' →
  J s → (∀ i s t, J s → body i s = Ok t → J t) → J s'.
Proof.
  revert lo s. induction n as [| n IH]; intros lo s Hrun HJ Hstep; simpl in Hrun.
  - by injection Hrun as <-.
  - apply bind_Ok in Hrun as (s1 & Hb & Hrun).
    apply (IH (lo + 1) s1); [done | by apply (Hstep lo s) | done].
Qed.

Lemma prod_sizes_nonneg (s : list Z) :
  forallb (Z.leb 0) s = true → 0 ≤ prod_sizes s.
Proof.
  unfold prod_sizes. induction s as [| x s IH]; simpl; [lia |].
  intros Hs. apply andb_prop in Hs as [Hx Hs]. specialize (IH Hs). nia.
Qed.

Section Returned.
Context {T : Type} `{Scalar T}.

Lemma spmm_entry_args (REDUCE : ReductionType) (P : Z → Prop)
    (col_data : list Z) (value_data : option (list T)) (mat_data : list T)
    (K offset e : Z) (va va' : list T * list Z) :
  (∀ e, 0 ≤ e < Z.of_nat (length col_data) → P e) →
  spmm_entry REDUCE col_data value_data mat_data K offset e va = Ok va' →
  Forall P va.2 → Forall P va'.2.
Proof.
  unfold spmm_entry. intros HP Hrun Hargs.
  apply bind_Ok in Hrun as (c & Hc & Hrun).
  apply read_inv in Hc as [He _]. apply HP in He.
  apply bind_Ok in Hrun as (val & _ & Hrun).
  unfold for_loop in Hrun.
  apply (for_range_partial (λ va : list T * list Z, Forall P va.2)
           _ _ _ _ _ Hrun Hargs).
  clear Hrun Hargs. intros k [vs as_] t Hargs Hbody. simpl in *.
  apply bind_Ok in Hbody as (x & _ & Hbody).
  apply bind_Ok in Hbody as (v0 & _ & Hbody).
  apply bind_Ok in Hbody as (a0 & Ha0 & Hbody).
  apply bind_Ok in Hbody as (vs' & _ & Hbody).
  apply bind_Ok in Hbody as (as' & Hw & Hbody).
  injection Hbody as <-. simpl.
  apply write_inv in Hw as [_ ->]. apply read_inv in Ha0 as [_ Ha0].
  apply Forall_insert; [done |].
  assert (Hb0 : P a0) by (by apply (Forall_lookup_1 _ _ _ _ Hargs Ha0)).
  unfold Reducer_update.
  destruct REDUCE; simpl; try done.
  - by destruct (s_lt _ v0).
  - by destruct (s_lt v0 _).
Qed.

Lemma Reducer_write_ok (REDUCE : ReductionType) (P : Z → Prop) (n : nat)
    (indexed : bool) (out : list T) (address : Z) (val : T)
    (aout : option (list Z)) (arg_address arg count : Z)
    (oa : list T * option (list Z)) :
  Reducer_write REDUCE out address val aout arg_address arg count = Ok oa →
  P arg →
  length out = n →
  match aout with
  | Some al => indexed = true ∧ length al = n ∧ Forall P al
  | None => indexed = false
  end →
  length oa.1 = n ∧
  match oa.2 with
  | Some al => indexed = true ∧ length al = n ∧ Forall P al
  | None => indexed = false
  end.
Proof.
  intros Hrun Harg Hlen Haout. unfold Reducer_write in Hrun.
  assert (Hplain : ∀ x, (out' ← write out address x; Ok (out', aout)) = Ok oa →
            length oa.1 = n ∧
            match oa.2 with
            | Some al => indexed = true ∧ length al = n ∧ Forall P al
            | None => indexed = false
            end).
  { intros x Hx. apply bind_Ok in Hx as (out' & Hw & Hx).
    injection Hx as <-. simpl. apply write_inv in Hw as [_ ->].
    by rewrite length_insert. }
  assert (Hidx : (out' ← write out address val;
                  aout' ← write_ptr aout arg_address arg;
                  Ok (out', aout')) = Ok oa →
            length oa.1 = n ∧
            match oa.2 with
            | Some al => indexed = true ∧ length al = n ∧ Forall P al
            | None => indexed = false
            end).
  { intros Hx. apply bind_Ok in Hx as (out' & Hw & Hx).
    apply bind_Ok in Hx as (aout' & Hp & Hx).
    injection Hx as <-. simpl. apply write_inv in Hw as [_ ->].
    split; [by rewrite length_insert |].
    destruct aout as [al |]; simpl in Hp; [| done].
    apply bind_Ok in Hp as (al' & Hw & Hp). injection Hp as <-.
    apply write_inv in Hw as [_ ->].
    destruct Haout as (Hi & Hl & Hall).
    split; [done |]. split; [by rewrite length_insert |].
    by apply Forall_insert. }
  destruct REDUCE; try (by apply (Hplain _ Hrun)).
  - destruct (0 <? count); [by apply Hidx | by apply (Hplain _ Hrun)].
  - destruct (0 <? count); [by apply Hidx | by apply (Hplain _ Hrun)].
Qed.

Lemma spmm_row_ok (REDUCE : ReductionType) (P : Z → Prop)
    (rowptr_data col_data : list Z) (value_data : option (list T))
    (mat_data : list T) (M N K b m : Z) (n : nat) (indexed : bool)
    (st st' : kstate) :
  (∀ e, 0 ≤ e < Z.of_nat (length col_data) → P e) →
  spmm_row REDUCE rowptr_data col_data value_data mat_data M N K b m st
  = Ok st' →
  kstate_ok P n indexed st → kstate_ok P n indexed st'.
Proof.
  destruct st as [[[vals args] out] aout]. unfold spmm_row, kstate_ok.
  simpl. intros HP Hrun (Hargs & Hlen & Haout).
  apply bind_Ok in Hrun as (rs & _ & Hrun).
  apply bind_Ok in Hrun as (re & _ & Hrun).
  apply bind_Ok in Hrun as (vals1 & _ & Hrun).
  apply bind_Ok in Hrun as (va & Hentries & Hrun).
  apply bind_Ok in Hrun as (oa & Hwrite & Hrun).
  injection Hrun as <-. simpl.
  assert (Hargs' : Forall P va.2).
  { unfold for_loop in Hentries.
    apply (for_range_partial (λ va : list T * list Z, Forall P va.2)
             _ _ _ _ _ Hentries Hargs).
    intros e s t Hs Hbody.
    by apply (spmm_entry_args _ _ _ _ _ _ _ _ _ _ HP Hbody). }
  split; [done |].
  unfold for_loop in Hwrite.
  apply (for_range_partial
           (λ oa : list T * option (list Z),
              length oa.1 = n ∧
              match oa.2 with
              | Some al => indexed = true ∧ length al = n ∧ Forall P al
              | None => indexed = false
              end)
           _ _ _ _ _ Hwrite); [done |].
  intros k [o a] t [Hl Ha] Hbody. simpl in *.
  apply bind_Ok in Hbody as (val & _ & Hbody).
  apply bind_Ok in Hbody as (arg & Harg & Hbody).
  apply read_inv in Harg as [_ Harg].
  apply (Reducer_write_ok _ _ _ _ _ _ _ _ _ _ _ _ Hbody); [| done | done].
  by apply (Forall_lookup_1 _ _ _ _ Hargs' Harg).
Qed.

Lemma spmm_kernel_ok (REDUCE : ReductionType) (P : Z → Prop)
    (rowptr_data col_data : list Z) (value_data : option (list T))
    (mat_data : list T) (B M N K : Z) (n : nat) (indexed : bool)
    (st st' : kstate) :
  (∀ e, 0 ≤ e < Z.of_nat (length col_data) → P e) →
  spmm_kernel REDUCE rowptr_data col_data value_data mat_data B M N K st
  = Ok st' →
  kstate_ok P n indexed st → kstate_ok P n indexed st'.
Proof.
  unfold spmm_kernel, for_loop. intros HP Hrun Hst.
  apply (for_range_partial _ _ _ _ _ _ Hrun Hst).
  intros b s t Hs Hbody.
  apply (for_range_partial _ _ _ _ _ _ Hbody Hs).
  intros m s1 t1 Hs1 Hrow.
  by apply (spmm_row_ok _ _ _ _ _ _ _ _ _ _ _ _ _ _ _ HP Hrow).
Qed.

(** What a returning call of [spmm] went through. *)
Lemma spmm_inv (garbage : nat → T) (rowptr col : Tensor Z)
    (value_opt : option (Tensor T)) (mat : Tensor T) (reduce : string)
    (res : Tensor T * option (Tensor Z)) :
  spmm garbage rowptr col value_opt mat reduce = Ok res →
  ∃ (REDUCE : ReductionType) (B N K : Z) (st : kstate),
    let shape := <[(length (sizes mat) - 2)%nat := numel rowptr - 1]>
                   (sizes mat) in
    let n := Z.to_nat (prod_sizes shape) in
    reduce2REDUCE !! reduce = Some REDUCE ∧
    forallb (Z.leb 0) shape = true ∧
    size mat (-2) = Ok N ∧ size mat (-1) = Ok K ∧
    div64 (numel mat) (N * K) = Ok B ∧
    spmm_kernel REDUCE (data rowptr) (data col) (data <$> value_opt)
      (data mat) B (numel rowptr - 1) N K
      (replicate (Z.to_nat K) s_zero, replicate (Z.to_nat K) 0,
       garbage <$> seq 0 n,
       if is_minmax REDUCE then Some (replicate n (numel col)) else None)
    = Ok st ∧
    res = spmm_result shape st.
Proof.
  unfold spmm. intros Hrun.
  do 8 (apply bind_Ok in Hrun as (? & _ & Hrun)).
  apply bind_Ok in Hrun as (shape & Hshape & Hrun).
  apply write_inv in Hshape as [Hd ->].
  apply bind_Ok in Hrun as (out & Hout & Hrun).
  unfold torch_empty in Hout.
  destruct (forallb _ _) eqn:Hpos; [| done]. injection Hout as <-.
  apply bind_Ok in Hrun as (r & Hr & Hrun).
  apply bind_Ok in Hrun as (N & HN & Hrun).
  apply bind_Ok in Hrun as (K & HK & Hrun).
  apply bind_Ok in Hrun as (B & HB & Hrun).
  apply bind_Ok in Hrun as (REDUCE & HR & Hrun).
  apply bind_Ok in Hrun as (st & Hk & Hrun).
  injection Hrun as <-.
  unfold reduce2REDUCE_at in Hr, HR.
  destruct (reduce2REDUCE !! reduce) as [r0 |] eqn:Hred; [| done].
  injection Hr as <-. injection HR as <-.
  replace (Z.to_nat (dim mat - 2)) with (length (sizes mat) - 2)%nat in *
    by (unfold dim; lia).
  exists r0, B, N, K, st. simpl in *.
  split; [done |]. split; [done |]. do 3 (split; [done |]). split; [| done].
  rewrite <- Hk. f_equal. f_equal.
  destruct r0; simpl; try done; unfold full_like; simpl;
    by rewrite length_fmap, length_seq.
Qed.

(** Whenever [spmm] returns, with no assumption on the arguments: the
    output is a CPU tensor of the shape of the dense operand with the
    second-to-last extent replaced by [numel rowptr - 1], and its storage
    fits that shape; an index tensor is returned exactly for the tokens
    "min" and "max", and it has the shape and the length of the output. *)
Theorem spmm_result_shape (garbage : nat → T) (rowptr col : Tensor Z)
    (value_opt : option (Tensor T)) (mat : Tensor T) (reduce : string)
    (out : Tensor T) (arg_out : option (Tensor Z)) :
  spmm garbage rowptr col value_opt mat reduce = Ok (out, arg_out) →
  is_cuda out = false ∧
  sizes out = <[(length (sizes mat) - 2)%nat := numel rowptr - 1]> (sizes mat) ∧
  tensor_ok out = true ∧
  match arg_out with
  | Some ao =>
      (reduce = "min" ∨ reduce = "max") ∧
      is_cuda ao = false ∧ sizes ao = sizes out ∧
      length (data ao) = length (data out)
  | None => reduce = "sum" ∨ reduce = "add" ∨ reduce = "mean"
  end.
Proof.
  intros Hrun.
  destruct (spmm_inv _ _ _ _ _ _ _ Hrun)
    as (REDUCE & B & N & K & st & Hred & Hpos & _ & _ & _ & Hk & Hres).
  simpl in *.
  apply (spmm_kernel_ok REDUCE (λ _, True) _ _ _ _ _ _ _ _
           (Z.to_nat (prod_sizes (<[(length (sizes mat) - 2)%nat :=
                                     numel rowptr - 1]> (sizes mat))))
           (is_minmax REDUCE)) in Hk; [| done |].
  2:{ unfold kstate_ok. simpl.
      split; [by apply Forall_forall |].
      split; [by rewrite length_fmap, length_seq |].
      destruct (is_minmax REDUCE); [| done].
      split; [done |]. split; [by rewrite length_replicate |].
      by apply Forall_forall. }
  destruct Hk as (_ & Hlen & Haout).
  unfold spmm_result in Hres. injection Hres as -> ->. simpl.
  split; [done |]. split; [done |]. split.
  { unfold tensor_ok. simpl. rewrite Hpos. simpl. apply Z.eqb_eq.
    unfold numel. simpl. rewrite Hlen.
    apply Z2Nat.id. by apply prod_sizes_nonneg. }
  rewrite reduce2REDUCE_lookup in Hred.
  destruct (st.2) as [al |]; simpl.
  - destruct Haout as (Hmm & Hal & _).
    split; [| by rewrite Hal, Hlen].
    repeat case_decide; subst; simplify_eq; auto; discriminate.
  - repeat case_decide; subst; simplify_eq; auto; discriminate.
Qed.

(** Whenever [spmm] returns an index tensor, every entry of it is an
    index into [col] or the filler [E = numel col]: nothing else can
    reach it, not even through the [args] left over from earlier rows. *)
Theorem spmm_arg_out_in_bounds (garbage : nat → T) (rowptr col : Tensor Z)
    (value_opt : option (Tensor T)) (mat : Tensor T) (reduce : string)
    (out : Tensor T) (ao : Tensor Z) :
  tensor_ok col = true →
  spmm garbage rowptr col value_opt mat reduce = Ok (out, Some ao) →
  Forall (λ a, 0 ≤ a ≤ numel col) (data ao).
Proof.
  intros Hcol Hrun.
  assert (Hlen := tensor_ok_length col Hcol).
  destruct (spmm_inv _ _ _ _ _ _ _ Hrun)
    as (REDUCE & B & N & K & st & Hred & Hpos & _ & _ & _ & Hk & Hres).
  simpl in *.
  apply (spmm_kernel_ok REDUCE (λ a, 0 ≤ a ≤ numel col) _ _ _ _ _ _ _ _
           (Z.to_nat (prod_sizes (<[(length (sizes mat) - 2)%nat :=
                                     numel rowptr - 1]> (sizes mat))))
           (is_minmax REDUCE)) in Hk.
  - destruct Hk as (_ & _ & Haout).
    unfold spmm_result in Hres. injection Hres as _ Hao.
    destruct (st.2) as [al |]; [| done]. simpl in Hao.
    injection Hao as ->. simpl. by destruct Haout as (_ & _ & ?).
  - intros e He. lia.
  - unfold kstate_ok. simpl.
    split; [apply Forall_replicate; lia |].
    split; [by rewrite length_fmap, length_seq |].
    destruct (is_minmax REDUCE); [| done].
    split; [done |]. split; [by rewrite length_replicate |].
    apply Forall_replicate. lia.
Qed.

(** Whenever [spmm_val_bw] returns, the gradient is a CPU tensor of rank
    1 with one element per element of [row], whatever the shapes of the
    other arguments. *)
Theorem spmm_val_bw_result_shape (row rowptr col : Tensor Z)
    (mat grad : Tensor T) (reduce : string) (out : Tensor T) :
  spmm_val_bw row rowptr col mat grad reduce = Ok out →
  is_cuda out = false ∧ sizes out = [numel row] ∧
  Z.of_nat (length (data out)) = numel row.
Proof.
  unfold spmm_val_bw. intros Hrun.
  do 5 (apply bind_Ok in Hrun as (? & _ & Hrun)).
  apply bind_Ok in Hrun as (M & _ & Hrun).
  apply bind_Ok in Hrun as (N & _ & Hrun).
  apply bind_Ok in Hrun as (K & _ & Hrun).
  apply bind_Ok in Hrun as (B & _ & Hrun).
  apply bind_Ok in Hrun as (z & Hz & Hrun).
  unfold torch_zeros in Hz.
  destruct (Z.leb_spec 0 (numel row)) as [HE | HE]; [| done].
  injection Hz as <-. simpl in Hrun.
  apply bind_Ok in Hrun as (REDUCE & _ & Hrun).
  apply bind_Ok in Hrun as (out_data & Hk & Hrun).
  injection Hrun as <-. simpl.
  split; [done |]. split; [done |].
  unfold for_loop in Hk.
  assert (Hlen : length out_data = Z.to_nat (numel row)); [| lia].
  apply (for_range_partial
           (λ o : list T, length o = Z.to_nat (numel row))
           _ _ _ _ _ Hk); [by rewrite length_replicate |].
  intros b s t Hs Hb.
  apply (for_range_partial
           (λ o : list T, length o = Z.to_nat (numel row))
           _ _ _ _ _ Hb Hs).
  intros e s1 t1 Hs1 Hentry. unfold bw_entry in Hentry.
  do 5 (apply bind_Ok in Hentry as (? & _ & Hentry)).
  apply write_inv in Hentry as [_ ->]. by rewrite length_insert.
Qed.

End Returned.

Lemma spmm_result_shape_witness :
  let out := mkTensor false [1; 2; 1] [14; 15] in
  let ao := mkTensor false [1; 2; 1] [1; 2] in
  is_cuda out = false ∧
  sizes out = <[1%nat := 2]> [1; 2; 1] ∧
  tensor_ok out = true ∧
  ("max" = "min" ∨ "max" = "max") ∧
  is_cuda ao = false ∧ sizes ao = sizes out ∧
  length (data ao) = length (data out).
Proof.
  apply (@spmm_result_shape Z (IntScalar I64) ex_garbage ex_rowptr ex_col
           (Some ex_value) ex_mat "max" (mkTensor false [1; 2; 1] [14; 15])
           (Some (mkTensor false [1; 2; 1] [1; 2]))).
  vm_compute. reflexivity.
Defined.

(** On the input whose second row reports the index left by the first,
    that index is still within [0, E]. *)
Lemma spmm_arg_out_in_bounds_witness :
  Forall (λ a, 0 ≤ a ≤ 2) [0; 0].
Proof.
  apply (@spmm_arg_out_in_bounds Z (IntScalar U8) ex_garbage top_rowptr
           top_col None top_mat "min" (mkTensor false [1; 2; 1] [7; 255])
           (mkTensor false [1; 2; 1] [0; 0])).
  - reflexivity.
  - vm_compute. reflexivity.
Defined.

Lemma spmm_val_bw_result_shape_witness :
  let out := mkTensor false [2] [10; 10] in
  is_cuda out = false ∧ sizes out = [2] ∧ Z.of_nat (length (data out)) = 2.
Proof.
  apply (@spmm_val_bw_result_shape Z (IntScalar I64) odd_row odd_rowptr
           odd_col odd_mat odd_grad "sum" (mkTensor false [2] [10; 10])).
  vm_compute. reflexivity.
Defined.


(** ** The contents of freshly allocated memory *)

Lemma res_rel_bind {A A' B B'} (R : A → A' → Prop) (Q : B → B' → Prop)
    (m : Res A) (m' : Res A') (f : A → Res B) (f' : A' → Res B') :
  res_rel R m m' →
  (∀ a a', R a a' → res_rel Q (f a) (f' a')) →
  res_rel Q (m ≫= f) (m' ≫= f').
Proof.
  intros Hm Hf. destruct m, m'; simpl in *; try done. by apply Hf.
Qed.

Lemma res_rel_refl {A} (m : Res A) : res_rel eq m m.
Proof. by destruct m. Qed.

Lemma for_range_sim {S S'} (R : S → S' → Prop)
    (body : Z → S → Res S) (body' : Z → S' → Res S') (n : nat) (lo : Z)
    (s : S) (s' : S') :
  (∀ i s s', R s s' → res_rel R (body i s) (body' i s')) →
  R s s' →
  res_rel R (for_range lo n body s) (for_range lo n body' s').
Proof.
  intros Hbody. revert lo s s'.
  induction n as [| n IH]; intros lo s s' HR; simpl; [done |].
  apply (res_rel_bind R R); [by apply Hbody | intros a a' Ha; by apply IH].
Qed.

Lemma write_sim {A} (p p' : list A) (i : Z) (x : A) :
  length p = length p' →
  res_rel (λ q q', length q = length q') (write p i x) (write p' i x).
Proof.
  intros Hlen. unfold write. rewrite Hlen.
  destruct ((0 <=? i) && (i <? Z.of_nat (length p'))); simpl; [| done].
  by rewrite !length_insert.
Qed.

(** Every slot of an output of [B * M * K] elements is the slot of some
    batch, row and feature. *)
Lemma slots_cover (B M K : Z) (i : nat) :
  0 < K → 0 ≤ M → 0 ≤ B → Z.of_nat i < B * M * K →
  ∃ b m k, 0 ≤ b < B ∧ 0 ≤ m < M ∧ 0 ≤ k < K ∧
           i = Z.to_nat (b * M * K + m * K + k).
Proof.
  intros HK HM HB Hi.
  assert (HM' : 0 < M) by nia.
  set (j := Z.of_nat i `div` K).
  assert (Hj : Z.of_nat i = K * j + Z.of_nat i `mod` K)
    by (subst j; apply Z.div_mod; lia).
  assert (Hk := Z.mod_pos_bound (Z.of_nat i) K HK).
  assert (Hj0 : 0 ≤ j) by (subst j; apply Z.div_pos; lia).
  assert (Hjm : j = M * (j `div` M) + j `mod` M) by (apply Z.div_mod; lia).
  assert (Hm := Z.mod_pos_bound j M HM').
  assert (Hb0 : 0 ≤ j `div` M) by (apply Z.div_pos; lia).
  clearbody j.
  exists (j `div` M), (j `mod` M), (Z.of_nat i `mod` K).
  assert (Hjlt : j < B * M) by nia.
  assert (Hblt : j `div` M < B) by (apply Z.div_lt_upper_bound; lia).
  repeat split; lia.
Qed.

Lemma slots_ext {A} (l l' : list A) (B M K : Z) :
  0 < K → 0 ≤ M → 0 ≤ B →
  Z.of_nat (length l) = B * M * K → Z.of_nat (length l') = B * M * K →
  (∀ b m k, 0 ≤ b < B → 0 ≤ m < M → 0 ≤ k < K →
     l !! Z.to_nat (b * M * K + m * K + k)
     = l' !! Z.to_nat (b * M * K + m * K + k)) →
  l = l'.
Proof.
  intros HK HM HB Hl Hl' Hpt. apply list_eq. intros i.
  destruct (decide (Z.of_nat i < B * M * K)) as [Hi | Hi].
  - destruct (slots_cover B M K i HK HM HB Hi) as (b & m & k & Hb & Hm & Hk & ->).
    by apply Hpt.
  - rewrite !lookup_ge_None_2; [done | lia | lia].
Qed.

Section Garbage.
Context {T : Type} `{Scalar T}.

Lemma Reducer_write_sim (REDUCE : ReductionType) (out out' : list T)
    (address : Z) (val : T) (aout : option (list Z))
    (arg_address arg count : Z) :
  length out = length out' →
  res_rel (λ oa oa' : list T * option (list Z),
             length oa.1 = length oa'.1 ∧ oa.2 = oa'.2)
    (Reducer_write REDUCE out address val aout arg_address arg count)
    (Reducer_write REDUCE out' address val aout arg_address arg count).
Proof.
  intros Hlen. unfold Reducer_write.
  assert (Hplain : ∀ x,
            res_rel (λ oa oa' : list T * option (list Z),
                       length oa.1 = length oa'.1 ∧ oa.2 = oa'.2)
              (o ← write out address x; Ok (o, aout))
              (o ← write out' address x; Ok (o, aout))).
  { intros x. eapply res_rel_bind; [by apply write_sim |].
    intros q q' Hq. simpl. done. }
  destruct REDUCE; try apply Hplain.
  - destruct (0 <? count); [| apply Hplain].
    eapply res_rel_bind; [by apply write_sim |].
    intros q q' Hq. simpl. destruct (write_ptr aout arg_address arg); by simpl.
  - destruct (0 <? count); [| apply Hplain].
    eapply res_rel_bind; [by apply write_sim |].
    intros q q' Hq. simpl. destruct (write_ptr aout arg_address arg); by simpl.
Qed.

(** The kernel never reads [out]: started on two output buffers of the
    same length it fails alike or ends in states that differ at most in
    the contents of [out]. *)
Lemma spmm_kernel_sim (REDUCE : ReductionType)
    (rowptr_data col_data : list Z) (value_data : option (list T))
    (mat_data : list T) (B M N K : Z) (st st' : kstate) :
  same_but_out st st' →
  res_rel same_but_out
    (spmm_kernel REDUCE rowptr_data col_data value_data mat_data B M N K st)
    (spmm_kernel REDUCE rowptr_data col_data value_data mat_data B M N K st').
Proof.
  unfold spmm_kernel, for_loop. apply for_range_sim. intros b s s' Hs.
  apply for_range_sim; [| done]. clear. intros m st st' Hst.
  destruct st as [[[vals args] out] aout], st' as [[[vals' args'] out'] aout'].
  destruct Hst as (Hva & Hlen & Ha). simpl in *.
  injection Hva as <- <-. subst aout'.
  unfold spmm_row.
  destruct (read rowptr_data m) as [rs | |]; simpl; try done.
  destruct (read rowptr_data (m + 1)) as [re | |]; simpl; try done.
  destruct (for_loop 0 K _ vals) as [vals1 | |]; simpl; try done.
  destruct (for_loop (to_int rs) re _ (vals1, args)) as [va | |];
    simpl; try done.
  eapply res_rel_bind.
  - unfold for_loop.
    apply (for_range_sim
             (λ oa oa' : list T * option (list Z),
                length oa.1 = length oa'.1 ∧ oa.2 = oa'.2)); [| done].
    intros k [o a] [o' a'] [Ho Ha]. simpl in *. subst a'.
    destruct (read va.1 k) as [val | |]; simpl; try done.
    destruct (read va.2 k) as [arg | |]; simpl; try done.
    by apply Reducer_write_sim.
  - intros [o a] [o' a'] [Ho Ha]. simpl in *. subst a'. done.
Qed.

(** The geometry of a well-formed call. *)
Lemma spmm_wf_geometry (rowptr col : Tensor Z) (value_opt : option (Tensor T))
    (mat : Tensor T) :
  spmm_wf rowptr col value_opt mat = true →
  0 < feat_K mat ∧ 0 ≤ rows_M rowptr ∧ 0 ≤ batch_B mat.
Proof.
  intros Hwf.
  destruct (spmm_wf_facts rowptr col value_opt mat Hwf)
    as (lead & N' & K' & Hs & HN & HK & HB & HNpos & HKpos & Hpl & _ &
        _ & _ & _ & _ & _ & _ & _ & HM & _).
  rewrite HK, HB. lia.
Qed.

(** Two returning calls on the same [rowptr] and dense operand whose
    outputs agree slot by slot return the same output tensor. *)
Lemma spmm_out_ext (garbage garbage' : nat → T) (rowptr col col' : Tensor Z)
    (value_opt value_opt' : option (Tensor T)) (mat : Tensor T)
    (reduce : string) (out out' : Tensor T) (ao ao' : option (Tensor Z)) :
  spmm garbage rowptr col value_opt mat reduce = Ok (out, ao) →
  spmm garbage' rowptr col' value_opt' mat reduce = Ok (out', ao') →
  let M := rows_M rowptr in
  let K := feat_K mat in
  let B := batch_B mat in
  0 < K → 0 ≤ M → 0 ≤ B →
  Z.of_nat (length (data out)) = B * M * K →
  Z.of_nat (length (data out')) = B * M * K →
  (∀ b m k, 0 ≤ b < B → 0 ≤ m < M → 0 ≤ k < K →
     data out !! Z.to_nat (b * M * K + m * K + k)
     = data out' !! Z.to_nat (b * M * K + m * K + k)) →
  out = out'.
Proof.
  intros Hrun Hrun' M K B HK HM HB Hl Hl' Hpt.
  assert (Hd : data out = data out') by (by apply (slots_ext _ _ B M K)).
  destruct (spmm_inv _ _ _ _ _ _ _ Hrun)
    as (? & ? & ? & ? & st & _ & _ & _ & _ & _ & _ & Hres).
  destruct (spmm_inv _ _ _ _ _ _ _ Hrun')
    as (? & ? & ? & ? & st' & _ & _ & _ & _ & _ & _ & Hres').
  unfold spmm_result in Hres, Hres'. simpl in *.
  injection Hres as -> _. injection Hres' as -> _. simpl in *.
  by rewrite Hd.
Qed.

(** The result of [spmm] does not depend on what the freshly allocated
    output held: on well-formed arguments and a known token every slot of
    the output is written before the call returns, and the index tensor
    never sees it. *)
Theorem spmm_garbage_indep (garbage garbage' : nat → T) (rowptr col : Tensor Z)
    (value_opt : option (Tensor T)) (mat : Tensor T) (reduce : string)
    (REDUCE : ReductionType) :
  reduce2REDUCE !! reduce = Some REDUCE →
  spmm_wf rowptr col value_opt mat = true →
  spmm garbage rowptr col value_opt mat reduce
  = spmm garbage' rowptr col value_opt mat reduce.
Proof.
  intros Hred Hwf.
  destruct (spmm_wf_geometry _ _ _ _ Hwf) as (HK & HM & HB).
  destruct (spmm_spec garbage rowptr col value_opt mat reduce REDUCE Hred Hwf)
    as (out & ao & Hrun & Hlen & Hval & _).
  destruct (spmm_spec garbage' rowptr col value_opt mat reduce REDUCE Hred Hwf)
    as (out' & ao' & Hrun' & Hlen' & Hval' & _).
  assert (Hout : out = out').
  { apply (spmm_out_ext _ _ _ _ _ _ _ _ _ _ _ _ _ Hrun Hrun');
      try done.
    intros b m k Hb Hm Hk. by rewrite Hval, Hval'. }
  rewrite Hrun, Hrun'. f_equal. f_equal; [done |].
  destruct (spmm_inv _ _ _ _ _ _ _ Hrun)
    as (R1 & B1 & N1 & K1 & st & Hred1 & _ & HN1 & HK1 & HB1 & Hk & Hres).
  destruct (spmm_inv _ _ _ _ _ _ _ Hrun')
    as (R2 & B2 & N2 & K2 & st' & Hred2 & _ & HN2 & HK2 & HB2 & Hk' & Hres').
  simpl in *.
  rewrite Hred in Hred1, Hred2. injection Hred1 as <-. injection Hred2 as <-.
  rewrite HN1 in HN2. injection HN2 as <-.
  rewrite HK1 in HK2. injection HK2 as <-.
  rewrite HB1 in HB2. injection HB2 as <-.
  match type of Hk with
  | spmm_kernel _ _ _ _ _ _ _ _ _ ?s0 = _ =>
      match type of Hk' with
      | spmm_kernel _ _ _ _ _ _ _ _ _ ?s0' = _ =>
          assert (Hsim := spmm_kernel_sim REDUCE (data rowptr) (data col)
                            (data <$> value_opt) (data mat) B1
                            (numel rowptr - 1) N1 K1 s0 s0')
      end
  end.
  rewrite Hk, Hk' in Hsim. simpl in Hsim.
  destruct Hsim as (_ & _ & Haout).
  { unfold same_but_out. simpl.
    split; [done |]. split; [| done].
    by rewrite !length_fmap. }
  unfold spmm_result in Hres, Hres'.
  injection Hres as _ ->. injection Hres' as _ ->. by rewrite Haout.
Qed.

End Garbage.

Lemma spmm_garbage_indep_witness :
  @spmm Z (IntScalar I64) ex_garbage ex_rowptr ex_col (Some ex_value) ex_mat
        "max"
  = @spmm Z (IntScalar I64) (λ _, 0) ex_rowptr ex_col (Some ex_value) ex_mat
          "max".
Proof.
  apply (@spmm_garbage_indep Z (IntScalar I64) ex_garbage (λ _, 0) ex_rowptr
           ex_col (Some ex_value) ex_mat "max" MAX).
  - reflexivity.
  - vm_compute. reflexivity.
Defined.


(** ** More on Min and Max over the integral element types *)

Lemma spmm_minmax_index_witness :
  ∃ out ao,
    @spmm Z (IntScalar I64) ex_garbage ex_rowptr ex_col (Some ex_value)
          ex_mat "max" = Ok (out, Some ao) ∧
    ∀ b m kk, 0 ≤ b < 1 → 0 ≤ m < 2 → 0 ≤ kk < 1 →
      let f := @contribution Z (IntScalar I64) (data ex_col)
                 (Some (data ex_value)) (data ex_mat) 2 1 b kk in
      let es := row_entries (data ex_rowptr) m in
      ∃ v a,
        data out !! Z.to_nat (b * 2 * 1 + m * 1 + kk) = Some v ∧
        data ao !! Z.to_nat (b * 2 * 1 + m * 1 + kk) = Some a ∧
        (row_degree (data ex_rowptr) m = 0 → v = 0 ∧ a = numel ex_col) ∧
        (0 < row_degree (data ex_rowptr) m →
         ∀ e, e ∈ es → better MAX (f e) v = false) ∧
        ((∃ e, e ∈ es ∧
               better MAX (f e) (@Reducer_init Z (IntScalar I64) MAX) = true) →
         a ∈ es ∧ f a = v ∧
         ∀ e, e ∈ es → e < a → better MAX v (f e) = true).
Proof.
  apply (spmm_minmax_index I64 ex_garbage ex_rowptr ex_col (Some ex_value)
           ex_mat "max" MAX).
  - reflexivity.
  - reflexivity.
  - vm_compute. reflexivity.
Defined.

Lemma spmm_minmax_values_perm_witness :
  ∃ out out' ao ao',
    @spmm Z (IntScalar I64) ex_garbage ex_rowptr ex_col (Some ex_value)
          ex_mat "max" = Ok (out, ao) ∧
    @spmm Z (IntScalar I64) ex_garbage ex_rowptr swap_col (Some swap_value)
          ex_mat "max" = Ok (out', ao') ∧
    ∀ b m kk, 0 ≤ b < 1 → 0 ≤ m < 2 → 0 ≤ kk < 1 →
      data out !! Z.to_nat (b * 2 * 1 + m * 1 + kk)
      = data out' !! Z.to_nat (b * 2 * 1 + m * 1 + kk).
Proof.
  apply (spmm_minmax_values_perm I64 ex_garbage ex_garbage ex_rowptr ex_col
           swap_col (Some ex_value) (Some swap_value) ex_mat "max" MAX).
  - reflexivity.
  - reflexivity.
  - vm_compute. reflexivity.
  - vm_compute. reflexivity.
  - intros b m kk Hb Hm Hk.
    change (batch_B ex_mat) with 1 in Hb.
    change (rows_M ex_rowptr) with 2 in Hm.
    change (feat_K ex_mat) with 1 in Hk.
    assert (Hb0 : b = 0) by lia. assert (Hk0 : kk = 0) by lia. subst b kk.
    assert (Hm' : m = 0 ∨ m = 1) by lia.
    destruct Hm' as [-> | ->]; vm_compute.
    + apply perm_swap.
    + apply Permutation_refl.
Defined.

Lemma reduce_row_ext {T : Type} `{Scalar T} (REDUCE : ReductionType)
    (f g : Z → T) (es : list Z) (st : T * Z) :
  (∀ e, e ∈ es → f e = g e) →
  reduce_row REDUCE f es st = reduce_row REDUCE g es st.
Proof.
  revert st. induction es as [| e es IH]; intros st Hfg; [done |].
  simpl. rewrite (Hfg e); [| by left]. apply IH.
  intros e' He'. apply Hfg. by right.
Qed.

Lemma at_in_range (k : IntKind) (p : list Z) (i : Z) :
  forallb (in_range k) p = true →
  in_range k (@at_ Z (IntScalar k) p i) = true.
Proof.
  intros Hp. unfold at_.
  destruct (p !! Z.to_nat i) as [x |] eqn:Hx; simpl; [| by destruct k].
  assert (HF : Forall (in_range k) p) by (apply forallb_True; by rewrite Hp).
  apply Is_true_true. by apply (Forall_lookup_1 _ _ _ _ HF Hx).
Qed.

Lemma contribution_in_range (k : IntKind) (col_data : list Z)
    (value_data : option (list Z)) (mat_data : list Z) (N K b kk e : Z) :
  forallb (in_range k) mat_data = true →
  in_range k (@contribution Z (IntScalar k) col_data value_data mat_data
                N K b kk e) = true.
Proof.
  intros Hm. unfold contribution, dense.
  destruct value_data as [vd |]; [apply int_wrap_range | by apply at_in_range].
Qed.

(** The value written under Min and Max is the extremum of the row. On
    well-formed arguments over an integral element type whose dense
    operand holds values of that type, every non-empty row yields a value
    that some entry of the row contributes and that no entry of the row
    is strictly better than; this holds also where the reported index is
    not an entry of the row. *)
Theorem spmm_minmax_value (k : IntKind) (garbage : nat → Z)
    (rowptr col : Tensor Z) (value_opt : option (Tensor Z)) (mat : Tensor Z)
    (reduce : string) (REDUCE : ReductionType) :
  reduce2REDUCE !! reduce = Some REDUCE →
  is_minmax REDUCE = true →
  spmm_wf rowptr col value_opt mat = true →
  forallb (in_range k) (data mat) = true →
  let M := rows_M rowptr in
  let N := cols_N mat in
  let K := feat_K mat in
  let B := batch_B mat in
  ∃ out ao,
    @spmm Z (IntScalar k) garbage rowptr col value_opt mat reduce
    = Ok (out, ao) ∧
    ∀ b m kk, 0 ≤ b < B → 0 ≤ m < M → 0 ≤ kk < K →
      0 < row_degree (data rowptr) m →
      let f := @contribution Z (IntScalar k) (data col) (data <$> value_opt)
                 (data mat) N K b kk in
      let es := row_entries (data rowptr) m in
      ∃ v, data out !! Z.to_nat (b * M * K + m * K + kk) = Some v ∧
           (∃ e, e ∈ es ∧ f e = v) ∧
           (∀ e, e ∈ es → better REDUCE (f e) v = false).
Proof.
  intros Hred Hmm Hwf Hrange M N K B. subst M N K B.
  destruct (@spmm_spec Z (IntScalar k) garbage rowptr col value_opt mat reduce
              REDUCE Hred Hwf) as (out & ao & Hrun & _ & Hval & _).
  exists out, ao. split; [done |].
  intros b m kk Hb Hm Hk Hdeg f es.
  specialize (Hval b m kk Hb Hm Hk).
  unfold row_value, written in Hval. fold f es in Hval.
  destruct (Z.ltb_spec 0 (row_degree (data rowptr) m)) as [_ | ?]; [| lia].
  eexists. split.
  { rewrite Hval. by destruct REDUCE. }
  destruct (reduce_row_minmax k REDUCE f es
              (@Reducer_init Z (IntScalar k) REDUCE) 0 Hmm)
    as (_ & Hatt & Hall & _ & _).
  split; [| done].
  destruct Hatt as [Hinit | Hsome]; [| done].
  (* the accumulator was never replaced: the first entry contributes it *)
  assert (He0 : atZ (data rowptr) m ∈ es).
  { subst es. unfold row_entries. apply elem_of_seqZ. lia. }
  exists (atZ (data rowptr) m). split; [done |].
  specialize (Hall _ He0). rewrite Hinit in *.
  assert (Hr := contribution_in_range k (data col) (data <$> value_opt)
                  (data mat) (cols_N mat) (feat_K mat) b kk
                  (atZ (data rowptr) m) Hrange).
  fold f in Hr. unfold in_range in Hr. apply andb_prop in Hr as [Hlo Hhi].
  clear - Hall Hlo Hhi Hmm.
  destruct REDUCE; try discriminate; simpl in *; lia.
Qed.

Lemma spmm_minmax_value_witness :
  ∃ out ao,
    @spmm Z (IntScalar U8) ex_garbage top_rowptr top_col None top_mat "min"
    = Ok (out, ao) ∧
    ∀ b m kk, 0 ≤ b < 1 → 0 ≤ m < 2 → 0 ≤ kk < 1 →
      0 < row_degree (data top_rowptr) m →
      let f := @contribution Z (IntScalar U8) (data top_col) None
                 (data top_mat) 2 1 b kk in
      let es := row_entries (data top_rowptr) m in
      ∃ v, data out !! Z.to_nat (b * 2 * 1 + m * 1 + kk) = Some v ∧
           (∃ e, e ∈ es ∧ f e = v) ∧
           (∀ e, e ∈ es → better MIN (f e) v = false).
Proof.
  apply (spmm_minmax_value U8 ex_garbage top_rowptr top_col None top_mat
           "min" MIN).
  - reflexivity.
  - reflexivity.
  - vm_compute. reflexivity.
  - vm_compute. reflexivity.
Defined.


(** ** Explicit and implicit weights *)

Lemma spmm_wf_drop_value {A} (rowptr col : Tensor Z) (v : Tensor A)
    (mat : Tensor A) :
  spmm_wf rowptr col (Some v) mat = true →
  spmm_wf rowptr col None mat = true.
Proof.
  unfold spmm_wf. simpl. intros Hwf.
  repeat (apply andb_prop in Hwf as [Hwf ?]).
  repeat match goal with
         | Hc : _ = true |- _ => try rewrite Hc; clear Hc
         end.
  reflexivity.
Qed.

(** A value tensor of ones is the same as no value tensor. On well-formed
    arguments over an integral element type whose dense operand holds
    values of that type, [spmm] returns the same output tensor with unit
    weights as without weights, for every reduction. *)
Theorem spmm_unit_weights (k : IntKind) (garbage : nat → Z)
    (rowptr col value : Tensor Z) (mat : Tensor Z) (reduce : string)
    (REDUCE : ReductionType) :
  reduce2REDUCE !! reduce = Some REDUCE →
  spmm_wf rowptr col (Some value) mat = true →
  forallb (in_range k) (data mat) = true →
  forallb (λ w, w =? 1) (data value) = true →
  ∃ out ao ao',
    @spmm Z (IntScalar k) garbage rowptr col (Some value) mat reduce
    = Ok (out, ao) ∧
    @spmm Z (IntScalar k) garbage rowptr col None mat reduce = Ok (out, ao').
Proof.
  intros Hred Hwf Hrange Hones.
  assert (Hwf' := spmm_wf_drop_value _ _ _ _ Hwf).
  destruct (spmm_wf_geometry _ _ _ _ Hwf) as (HK & HM & HB).
  destruct (spmm_wf_facts rowptr col (Some value) mat Hwf)
    as (lead & N' & K' & _ & HN & _ & _ & _ & _ & _ & _ &
        _ & _ & _ & _ & _ & _ & _ & _ & _ & Hcsr & Hvok & _).
  destruct (@spmm_spec Z (IntScalar k) garbage rowptr col (Some value) mat
              reduce REDUCE Hred Hwf) as (out & ao & Hrun & Hlen & Hval & _).
  destruct (@spmm_spec Z (IntScalar k) garbage rowptr col None mat
              reduce REDUCE Hred Hwf') as (out' & ao' & Hrun' & Hlen' & Hval' & _).
  exists out, ao, ao'. split; [done |].
  assert (Hout : out = out'); [| by rewrite Hout].
  apply (@spmm_out_ext Z (IntScalar k) _ _ _ _ _ _ _ _ _ _ _ _ _ Hrun Hrun');
    try done.
  intros b m kk Hb Hm Hk. rewrite Hval, Hval'; try done. f_equal.
  unfold row_value. f_equal. f_equal.
  apply reduce_row_ext. intros e He.
  unfold row_entries in He. apply elem_of_seqZ in He.
  destruct Hcsr as (_ & Hrp & _ & _).
  destruct (Hrp m Hm) as [Hmono Hend].
  unfold row_degree in He.
  unfold contribution. simpl.
  assert (Hw : @at_ Z (IntScalar k) (data value) e = 1).
  { assert (Hl : length (data value) = length (data col))
      by (by apply (Hvok (data value))).
    unfold at_.
    destruct (lookup_lt_is_Some_2 (data value) (Z.to_nat e)) as [w Hwe];
      [lia |].
    rewrite Hwe. simpl.
    assert (HF : Forall (λ w, w =? 1) (data value))
      by (apply forallb_True; by rewrite Hones).
    assert (H1 := Forall_lookup_1 _ _ _ _ HF Hwe). simpl in H1.
    apply Is_true_true in H1. lia. }
  rewrite Hw.
  rewrite Z.mul_1_l.
  apply int_wrap_id. by apply at_in_range.
Qed.

Lemma spmm_unit_weights_witness :
  ∃ out ao ao',
    @spmm Z (IntScalar I64) ex_garbage ex_rowptr ex_col (Some unit_value)
          ex_mat "mean" = Ok (out, ao) ∧
    @spmm Z (IntScalar I64) ex_garbage ex_rowptr ex_col None ex_mat "mean"
    = Ok (out, ao').
Proof.
  apply (spmm_unit_weights I64 ex_garbage ex_rowptr ex_col unit_value ex_mat
           "mean" MEAN).
  - reflexivity.
  - vm_compute. reflexivity.
  - vm_compute. reflexivity.
  - vm_compute. reflexivity.
Defined.

(** ** The gradient under Mean on the wide integral types *)


Section BackwardRun.
Context {T : Type} `{Scalar T}.


End BackwardRun.




(** ** Nothing to accumulate *)


Section Idle.
Context {T : Type} `{Scalar T}.


End Idle.

